(** * MoneyMap: the transaction form (transaction-form.jsx)

    A shallow embedding of the state-changing logic of [AddTransactionForm]:
    the default values of the draft, the receipt-scan bridge
    ([handleScanComplete]) and the voice command interpreter
    ([processVoiceCommand]), with the two regular expressions the interpreter
    uses run by a small backtracking matcher.

    Strings are Stdlib strings; a character stands for one UTF-16 code unit
    below 256 (the Latin-1 range), which is where every literal of the source
    lives. *)

From Stdlib Require Import Bool Arith Lia List Ascii String DecimalString.
Import ListNotations.
Open Scope string_scope.

(* ================================================================= *)
(** ** JavaScript string primitives *)

Module JSString.

(** [s.startsWith(p)] *)
Fixpoint startsWith (s p : string) {struct p} : bool :=
  match p, s with
  | EmptyString, _ => true
  | String _ _, EmptyString => false
  | String a p', String b s' => Ascii.eqb a b && startsWith s' p'
  end.

(** [s.includes(p)]: [p] occurs in [s] at some index. *)
Fixpoint includes (s p : string) : bool :=
  startsWith s p ||
  match s with
  | EmptyString => false
  | String _ s' => includes s' p
  end.

(** The rest of [s] after the literal [p], when [s] starts with [p]. *)
Fixpoint stripPrefix (p s : string) : option string :=
  match p, s with
  | EmptyString, _ => Some s
  | String _ _, EmptyString => None
  | String a p', String b s' =>
      if Ascii.eqb a b then stripPrefix p' s' else None
  end.

Definition codeIn (lo hi : nat) (a : ascii) : bool :=
  ((lo <=? nat_of_ascii a)%nat && (nat_of_ascii a <=? hi)%nat)%bool.

(** [\d] *)
Definition isDigit (a : ascii) : bool := codeIn 48 57 a.

(** Line terminators below 256: LF and CR. *)
Definition isLineTerminator (a : ascii) : bool :=
  let n := nat_of_ascii a in ((n =? 10)%nat || (n =? 13)%nat)%bool.

(** [\s], and what [trim] strips: TAB, LF, VT, FF, CR, SPACE, NBSP. *)
Definition isSpace (a : ascii) : bool :=
  let n := nat_of_ascii a in
  (codeIn 9 13 a || (n =? 32)%nat || (n =? 160)%nat)%bool.

(** [.] without the [s] flag: anything but a line terminator. *)
Definition isDot (a : ascii) : bool := negb (isLineTerminator a).

(** [toLowerCase] on one code unit: A-Z, and the Latin-1 capitals
    U+00C0..U+00DE except the multiplication sign U+00D7. *)
Definition lowerChar (a : ascii) : ascii :=
  let n := nat_of_ascii a in
  if codeIn 65 90 a then ascii_of_nat (n + 32)
  else if (codeIn 192 222 a && negb (n =? 215)%nat)%bool then ascii_of_nat (n + 32)
  else a.

Fixpoint toLowerCase (s : string) : string :=
  match s with
  | EmptyString => EmptyString
  | String a s' => String (lowerChar a) (toLowerCase s')
  end.

Fixpoint trimStart (s : string) : string :=
  match s with
  | EmptyString => EmptyString
  | String a s' => if isSpace a then trimStart s' else s
  end.

Fixpoint trimEnd (s : string) : string :=
  match s with
  | EmptyString => EmptyString
  | String a s' =>
      match trimEnd s' with
      | EmptyString => if isSpace a then EmptyString else String a EmptyString
      | t => String a t
      end
  end.

(** [s.trim()] *)
Definition trim (s : string) : string := trimEnd (trimStart s).

(** JavaScript truthiness of a string that may be undefined. *)
Definition truthy (v : option string) : bool :=
  match v with
  | Some (String _ _) => true
  | _ => false
  end.

(** [a || b] on strings that may be undefined. *)
Definition orElse (a b : option string) : option string :=
  if truthy a then a else b.

End JSString.
Import JSString.

(* ================================================================= *)
(** ** Regular expressions: a backtracking matcher *)

Module RegExp.

(** The fragment of the pattern language the source uses.  Quantifiers [+]
    and [+?] are only ever applied to character classes there. *)
Inductive regex : Type :=
  | Lit (s : string)                 (* literal characters *)
  | Cls (p : ascii -> bool)          (* one character of a class *)
  | Eos                              (* [$], no [m] flag *)
  | Seq (r1 r2 : regex)
  | Alt (r1 r2 : regex)              (* [r1|r2], left first *)
  | PlusG (p : ascii -> bool)        (* [c+], greedy *)
  | PlusL (p : ascii -> bool)        (* [c+?], lazy *)
  | Opt (r : regex)                  (* [r?], greedy *)
  | Grp (n : nat) (r : regex).       (* capture group number [n] *)

(** Captures: group number to matched text, [None] for undefined. *)
Definition Captures := nat -> option string.

Definition noCaptures : Captures := fun _ => None.

Definition setCapture (n : nat) (t : string) (c : Captures) : Captures :=
  fun m => if Nat.eqb m n then Some t else c m.

(** Continuations receive the text matched so far by the current node and
    the input that is left. *)
Definition Cont (R : Type) := string -> string -> option R.

Definition orTry {R : Type} (a : option R) (b : unit -> option R) : option R :=
  match a with
  | Some x => Some x
  | None => b tt
  end.

(** [c+]: take as many as possible, give back one at a time. *)
Fixpoint plusGreedy {R : Type} (p : ascii -> bool) (s : string) (k : Cont R)
  : option R :=
  match s with
  | EmptyString => None
  | String a s' =>
      if p a then
        orTry (plusGreedy p s' (fun t rest => k (String a t) rest))
              (fun _ => k (String a EmptyString) s')
      else None
  end.

(** [c+?]: take one, take another only when the rest fails. *)
Fixpoint plusLazy {R : Type} (p : ascii -> bool) (s : string) (k : Cont R)
  : option R :=
  match s with
  | EmptyString => None
  | String a s' =>
      if p a then
        orTry (k (String a EmptyString) s')
              (fun _ => plusLazy p s' (fun t rest => k (String a t) rest))
      else None
  end.

Fixpoint rmatch (r : regex) (s : string) (c : Captures)
  (k : string -> string -> Captures -> option Captures) : option Captures :=
  match r with
  | Lit l =>
      match stripPrefix l s with
      | Some rest => k l rest c
      | None => None
      end
  | Cls p =>
      match s with
      | String a s' => if p a then k (String a EmptyString) s' c else None
      | EmptyString => None
      end
  | Eos =>
      match s with
      | EmptyString => k EmptyString EmptyString c
      | String _ _ => None
      end
  | Seq r1 r2 =>
      rmatch r1 s c (fun t1 s1 c1 =>
        rmatch r2 s1 c1 (fun t2 s2 c2 => k (t1 ++ t2) s2 c2))
  | Alt r1 r2 =>
      orTry (rmatch r1 s c k) (fun _ => rmatch r2 s c k)
  | PlusG p => plusGreedy p s (fun t rest => k t rest c)
  | PlusL p => plusLazy p s (fun t rest => k t rest c)
  | Opt r1 =>
      orTry (rmatch r1 s c k) (fun _ => k EmptyString s c)
  | Grp n r1 =>
      rmatch r1 s c (fun t rest c1 => k t rest (setCapture n t c1))
  end.

(** A match anchored at the start of [s]; group 0 is the whole match. *)
Definition matchHere (r : regex) (s : string) : option Captures :=
  rmatch r s noCaptures (fun t _ c => Some (setCapture 0 t c)).

(** [s.match(r)] for a pattern without the [g] flag: the leftmost start
    index at which the pattern matches, from index 0 to the end. *)
Fixpoint exec (r : regex) (s : string) : option Captures :=
  orTry (matchHere r s)
        (fun _ => match s with
                  | EmptyString => None
                  | String _ s' => exec r s'
                  end).

(** Static facts about a pattern, used to show which captures a match
    defines.  [consumes r]: every match of [r] is non-empty. *)
Fixpoint consumes (r : regex) : bool :=
  match r with
  | Lit l => negb (String.eqb l EmptyString)
  | Cls _ | PlusG _ | PlusL _ => true
  | Eos | Opt _ => false
  | Seq r1 r2 => consumes r1 || consumes r2
  | Alt r1 r2 => consumes r1 && consumes r2
  | Grp _ r1 => consumes r1
  end.

(** [mentions r n]: group [n] occurs in [r]. *)
Fixpoint mentions (r : regex) (n : nat) : bool :=
  match r with
  | Lit _ | Cls _ | Eos | PlusG _ | PlusL _ => false
  | Seq r1 r2 | Alt r1 r2 => mentions r1 n || mentions r2 n
  | Opt r1 => mentions r1 n
  | Grp m r1 => Nat.eqb n m || mentions r1 n
  end.

(** [fills r n]: every match of [r] leaves a non-empty text in group [n]. *)
Fixpoint fills (r : regex) (n : nat) : bool :=
  match r with
  | Lit _ | Cls _ | Eos | PlusG _ | PlusL _ | Opt _ => false
  | Seq r1 r2 => (fills r1 n && negb (mentions r2 n)) || fills r2 n
  | Alt r1 r2 => fills r1 n && fills r2 n
  | Grp m r1 => if Nat.eqb n m then consumes r1 else fills r1 n
  end.

End RegExp.
Import RegExp.

(** [\d+(\.\d+)?], the inner group being number [g]. *)
Definition decimal (g : nat) : regex :=
  Seq (PlusG isDigit) (Opt (Grp g (Seq (Lit ".") (PlusG isDigit)))).

(** [/amount (\d+(\.\d+)?)|(\d+(\.\d+)?) dollars/] *)
Definition amountRe : regex :=
  Alt (Seq (Lit "amount ") (Grp 1 (decimal 2)))
      (Seq (Grp 3 (decimal 4)) (Lit " dollars")).

(** [/description (.+?)($|\s(amount|type|account|category|date))/] *)
Definition descriptionRe : regex :=
  Seq (Lit "description ")
      (Seq (Grp 1 (PlusL isDot))
           (Grp 2 (Alt Eos
                       (Seq (Cls isSpace)
                            (Grp 3 (Alt (Lit "amount")
                                   (Alt (Lit "type")
                                   (Alt (Lit "account")
                                   (Alt (Lit "category")
                                        (Lit "date")))))))))).

(** The last part of [descriptionRe]: [$|\s(amount|type|account|category|date)], as group 2. *)
Definition descriptionEnd : regex :=
  Grp 2 (Alt Eos
           (Seq (Cls isSpace)
                (Grp 3 (Alt (Lit "amount")
                       (Alt (Lit "type")
                       (Alt (Lit "account")
                       (Alt (Lit "category")
                            (Lit "date")))))))).

(** Side conditions on the text around an amount phrase. *)
Fixpoint allChars (p : ascii -> bool) (s : string) : bool :=
  match s with
  | EmptyString => true
  | String a s' => p a && allChars p s'
  end.

Definition headIs (p : ascii -> bool) (s : string) : bool :=
  match s with
  | EmptyString => false
  | String a _ => p a
  end.

(** No digit anywhere in [s]. *)
Definition noDigit (s : string) : bool :=
  allChars (fun a => negb (isDigit a)) s.

(** [s] goes on with a digit, or with a dot and a digit: the number the
    pattern reads would be longer. *)
Definition numberGoesOn (s : string) : bool :=
  headIs isDigit s ||
  match s with
  | String a rest => Ascii.eqb "." a && headIs isDigit rest
  | EmptyString => false
  end.

(** A non-empty run of digits. *)
Definition isDigits (s : string) : bool :=
  headIs isDigit s && allChars isDigit s.

(** A decimal numeral: digits, or digits, a dot and digits. *)
Definition DecimalText (n : string) : Prop :=
  exists ds, isDigits ds = true /\
    (n = ds \/ exists fs, isDigits fs = true /\ n = ds ++ "." ++ fs).

Fixpoint lastIs (p : ascii -> bool) (s : string) : bool :=
  match s with
  | EmptyString => false
  | String a EmptyString => p a
  | String _ s' => lastIs p s'
  end.

(** Where the description pattern may stop: at the end of the input, or
    before white space and one of the five keywords. *)
Definition descriptionEnds (s : string) : bool :=
  match s with
  | EmptyString => true
  | String a rest =>
      isSpace a &&
      (startsWith rest "amount" || startsWith rest "type" ||
       startsWith rest "account" || startsWith rest "category" ||
       startsWith rest "date")
  end.

(** The pattern cannot stop after a shorter non-empty part of [w]. *)
Fixpoint noEarlierEnd (w rest : string) : bool :=
  match w with
  | EmptyString => true
  | String _ w' =>
      match w' with
      | EmptyString => true
      | String _ _ => negb (descriptionEnds (w' ++ rest)) && noEarlierEnd w' rest
      end
  end.

(* ================================================================= *)
(** ** The data model *)

Inductive TransactionType : Set := EXPENSE | INCOME.

Inductive RecurringInterval : Set := DAILY | WEEKLY | MONTHLY | YEARLY.

Set Implicit Arguments.
Set Maximal Implicit Insertion.

Section Form.

(** Host values the component only passes around: JavaScript numbers with
    [toString], [Date] objects with [new Date(x)] and the local-calendar
    step [d.setDate(d.getDate() - 1)]. *)
Variable Number : Type.
Variable Number_toString : Number -> string.
Variable Date : Type.
Variable DateSource : Type.
Variable Date_from : DateSource -> Date.
Variable Date_previousDay : Date -> Date.

Record Account : Type := mkAccount {
  acc_id : string;
  acc_name : string;
  acc_balance : Number;
  acc_isDefault : bool
}.

Record Category : Type := mkCategory {
  cat_id : string;
  cat_name : string;
  cat_type : TransactionType
}.

(** The form values.  A field that may be missing from the JavaScript
    object (undefined) is an option. *)
Record Draft : Type := mkDraft {
  type : TransactionType;
  amount : option string;
  description : option string;
  accountId : option string;
  category : option string;
  date : Date;
  isRecurring : bool;
  recurringInterval : option RecurringInterval
}.

(** The existing transaction handed to the form in edit mode. *)
Record InitialData : Type := mkInitialData {
  init_type : TransactionType;
  init_amount : Number;
  init_description : option string;
  init_accountId : option string;
  init_category : option string;
  init_date : DateSource;
  init_isRecurring : bool;
  init_recurringInterval : option RecurringInterval
}.

(** What the receipt scanner reports. *)
Record ScannedData : Type := mkScannedData {
  scan_amount : Number;
  scan_date : DateSource;
  scan_description : option string;
  scan_category : option string
}.

(** The observable state of the form: its values, the notifications shown
    so far (oldest first) and how often submission was requested. *)
Record Form : Type := mkForm {
  values : Draft;
  toasts : list string;
  submits : nat
}.

(* ----------------------------------------------------------------- *)
(** *** setValue, toast.success, handleSubmit(onSubmit)() *)

Definition onValues (g : Draft -> Draft) (f : Form) : Form :=
  mkForm (g (values f)) (toasts f) (submits f).

Definition setType (v : TransactionType) : Form -> Form :=
  onValues (fun d => mkDraft v (amount d) (description d) (accountId d)
    (category d) (date d) (isRecurring d) (recurringInterval d)).

Definition setAmount (v : option string) : Form -> Form :=
  onValues (fun d => mkDraft (type d) v (description d) (accountId d)
    (category d) (date d) (isRecurring d) (recurringInterval d)).

Definition setDescription (v : option string) : Form -> Form :=
  onValues (fun d => mkDraft (type d) (amount d) v (accountId d)
    (category d) (date d) (isRecurring d) (recurringInterval d)).

Definition setAccountId (v : option string) : Form -> Form :=
  onValues (fun d => mkDraft (type d) (amount d) (description d) v
    (category d) (date d) (isRecurring d) (recurringInterval d)).

Definition setCategory (v : option string) : Form -> Form :=
  onValues (fun d => mkDraft (type d) (amount d) (description d)
    (accountId d) v (date d) (isRecurring d) (recurringInterval d)).

Definition setDate (v : Date) : Form -> Form :=
  onValues (fun d => mkDraft (type d) (amount d) (description d)
    (accountId d) (category d) v (isRecurring d) (recurringInterval d)).

Definition setIsRecurring (v : bool) : Form -> Form :=
  onValues (fun d => mkDraft (type d) (amount d) (description d)
    (accountId d) (category d) (date d) v (recurringInterval d)).

Definition setRecurringInterval (v : option RecurringInterval)
  : Form -> Form :=
  onValues (fun d => mkDraft (type d) (amount d) (description d)
    (accountId d) (category d) (date d) (isRecurring d) v).

Definition toast (msg : string) (f : Form) : Form :=
  mkForm (values f) (toasts f ++ [msg]) (submits f).

(** [handleSubmit(onSubmit)()] starts validation and submission
    asynchronously; the values are not touched by the call itself. *)
Definition requestSubmit (f : Form) : Form :=
  mkForm (values f) (toasts f) (S (submits f)).

(** Statements in source order. *)
Definition andThen (g h : Form -> Form) : Form -> Form := fun f => h (g f).
Infix ";;" := andThen (at level 61, left associativity).

Definition skip : Form -> Form := fun f => f.

(* ----------------------------------------------------------------- *)
(** *** defaultValues *)

(** [accounts.find((ac) => ac.isDefault)?.id] *)
Definition defaultAccountId (accounts : list Account) : option string :=
  option_map acc_id (find acc_isDefault accounts).

(** [editMode && initialData ? {...} : {...}].  In edit mode the interval
    is spread into the object only when the existing transaction has one;
    in create mode the object has no category and no interval at all. *)
Definition defaultValues (accounts : list Account) (editMode : bool)
  (initialData : option InitialData) (now : Date) : Draft :=
  match (if editMode then initialData else None) with
  | Some i =>
      mkDraft (init_type i)
              (Some (Number_toString (init_amount i)))
              (init_description i)
              (init_accountId i)
              (init_category i)
              (Date_from (init_date i))
              (init_isRecurring i)
              (init_recurringInterval i)
  | None =>
      mkDraft EXPENSE
              (Some "")
              (Some "")
              (defaultAccountId accounts)
              None
              now
              false
              None
  end.

Definition initialForm (accounts : list Account) (editMode : bool)
  (initialData : option InitialData) (now : Date) : Form :=
  mkForm (defaultValues accounts editMode initialData now) [] 0.

(* ----------------------------------------------------------------- *)
(** *** handleScanComplete *)

Definition handleScanComplete (scannedData : option ScannedData)
  : Form -> Form :=
  match scannedData with
  | Some d =>
      setAmount (Some (Number_toString (scan_amount d))) ;;
      setDate (Date_from (scan_date d)) ;;
      (if truthy (scan_description d)
       then setDescription (scan_description d) else skip) ;;
      (if truthy (scan_category d)
       then setCategory (scan_category d) else skip) ;;
      toast "Receipt scanned successfully"
  | None => skip
  end.

(* ----------------------------------------------------------------- *)
(** *** processVoiceCommand *)

(** Type commands *)
Definition typeCommands (transcript : string) : Form -> Form :=
  if includes transcript "expense" || includes transcript "spending" then
    setType EXPENSE ;; toast "Set type to Expense"
  else if includes transcript "income" || includes transcript "earning" then
    setType INCOME ;; toast "Set type to Income"
  else skip.

(** Amount commands.  One of the groups 1 and 3 holds a non-empty text in
    every match of [amountRe], so the amount set is never undefined. *)
Definition amountCommands (transcript : string) : Form -> Form :=
  match exec amountRe transcript with
  | Some amountMatch =>
      let amount := orElse (amountMatch 1) (amountMatch 3) in
      setAmount amount ;;
      toast ("Set amount to " ++ match amount with
                                 | Some a => a
                                 | None => "undefined"
                                 end)
  | None => skip
  end.

(** Date commands *)
Definition dateCommands (now : Date) (transcript : string) : Form -> Form :=
  if includes transcript "today" then
    setDate now ;; toast "Set date to today"
  else if includes transcript "yesterday" then
    let yesterday := Date_previousDay now in
    setDate yesterday ;; toast "Set date to yesterday"
  else skip.

(** Description commands.  Group 1 takes part in every match of
    [descriptionRe], so its capture is always defined. *)
Definition descriptionCommands (transcript : string) : Form -> Form :=
  match exec descriptionRe transcript with
  | Some descriptionMatch =>
      let text := option_map trim (descriptionMatch 1) in
      setDescription text ;;
      toast ("Set description to " ++ match text with
                                      | Some a => a
                                      | None => "undefined"
                                      end)
  | None => skip
  end.

(** Category commands: the [for ... of] loop with its [break]. *)
Fixpoint categoryCommands (categories : list Category) (transcript : string)
  : Form -> Form :=
  match categories with
  | [] => skip
  | category :: more =>
      if includes transcript ("category " ++ toLowerCase (cat_name category))
      then setCategory (Some (cat_id category)) ;;
           toast ("Set category to " ++ cat_name category)
      else categoryCommands more transcript
  end.

(** Account commands *)
Fixpoint accountCommands (accounts : list Account) (transcript : string)
  : Form -> Form :=
  match accounts with
  | [] => skip
  | account :: more =>
      if includes transcript ("account " ++ toLowerCase (acc_name account))
      then setAccountId (Some (acc_id account)) ;;
           toast ("Set account to " ++ acc_name account)
      else accountCommands more transcript
  end.

(** Recurring commands *)
Definition recurringCommands (transcript : string) : Form -> Form :=
  if includes transcript "recurring yes" || includes transcript "set recurring"
  then setIsRecurring true ;; toast "Enabled recurring transaction"
  else if includes transcript "recurring no"
          || includes transcript "not recurring"
  then setIsRecurring false ;; toast "Disabled recurring transaction"
  else skip.

(** Recurring interval commands *)
Definition intervalCommands (transcript : string) : Form -> Form :=
  if includes transcript "daily" then
    setRecurringInterval (Some DAILY) ;;
    toast "Set recurring interval to daily"
  else if includes transcript "weekly" then
    setRecurringInterval (Some WEEKLY) ;;
    toast "Set recurring interval to weekly"
  else if includes transcript "monthly" then
    setRecurringInterval (Some MONTHLY) ;;
    toast "Set recurring interval to monthly"
  else if includes transcript "yearly" then
    setRecurringInterval (Some YEARLY) ;;
    toast "Set recurring interval to yearly"
  else skip.

(** Submit command *)
Definition submitCommands (transcript : string) : Form -> Form :=
  if includes transcript "submit" || includes transcript "save transaction"
  then requestSubmit ;; toast "Submitting form..."
  else skip.

Definition processVoiceCommand (categories : list Category)
  (accounts : list Account) (now : Date) (transcript : string)
  : Form -> Form :=
  typeCommands transcript ;;
  amountCommands transcript ;;
  dateCommands now transcript ;;
  descriptionCommands transcript ;;
  categoryCommands categories transcript ;;
  accountCommands accounts transcript ;;
  recurringCommands transcript ;;
  intervalCommands transcript ;;
  submitCommands transcript.

(** [recognition.onresult]: the transcript of the last result is
    lower-cased and then interpreted (the status text it also sets is not
    part of the form). *)
Definition onresult (categories : list Category) (accounts : list Account)
  (now : Date) (heard : string) : Form -> Form :=
  processVoiceCommand categories accounts now (toLowerCase heard).

(* ----------------------------------------------------------------- *)
(** *** The draft invariant and the states the component reaches *)

(** recurringInterval present only when isRecurring is true. *)
Definition intervalOnlyWhenRecurring (d : Draft) : Prop :=
  recurringInterval d <> None -> isRecurring d = true.

Definition initialDataInvariant (i : InitialData) : Prop :=
  init_recurringInterval i <> None -> init_isRecurring i = true.

(** Draft states reached from the initial values by voice commands whose
    transcripts satisfy [allowed]. *)
Inductive Reachable (allowed : string -> Prop) : Form -> Prop :=
  | reach_create : forall accounts now,
      Reachable allowed (initialForm accounts false None now)
  | reach_edit : forall accounts i now,
      initialDataInvariant i ->
      Reachable allowed (initialForm accounts true (Some i) now)
  | reach_voice : forall categories accounts now transcript f,
      Reachable allowed f ->
      allowed transcript ->
      Reachable allowed
        (processVoiceCommand categories accounts now transcript f).

Definition anyTranscript (transcript : string) : Prop := True.

(** The conditions of the recurring and interval rules. *)
Definition enablesRecurring (transcript : string) : bool :=
  includes transcript "recurring yes" || includes transcript "set recurring".

Definition disablesRecurring (transcript : string) : bool :=
  negb (enablesRecurring transcript) &&
  (includes transcript "recurring no" || includes transcript "not recurring").

Definition namesInterval (transcript : string) : bool :=
  includes transcript "daily" || includes transcript "weekly" ||
  includes transcript "monthly" || includes transcript "yearly".

(** Transcripts that switch recurring on, or touch neither the interval nor
    switch recurring off. *)
Definition keepsInterval (transcript : string) : Prop :=
  enablesRecurring transcript = true \/
  (namesInterval transcript = false /\ disablesRecurring transcript = false).

(** Conditions of the category and account loops. *)
Definition namesCategory (transcript : string) (c : Category) : bool :=
  includes transcript ("category " ++ toLowerCase (cat_name c)).

Definition namesAccount (transcript : string) (a : Account) : bool :=
  includes transcript ("account " ++ toLowerCase (acc_name a)).

(** Does any of the nine rules fire on the transcript? *)
Definition isMatch (m : option Captures) : bool :=
  match m with Some _ => true | None => false end.

Definition matchesSomeRule (categories : list Category)
  (accounts : list Account) (transcript : string) : bool :=
  (* 1 type *)
  includes transcript "expense" || includes transcript "spending" ||
  includes transcript "income" || includes transcript "earning" ||
  (* 2 amount *)
  isMatch (exec amountRe transcript) ||
  (* 3 date *)
  includes transcript "today" || includes transcript "yesterday" ||
  (* 4 description *)
  isMatch (exec descriptionRe transcript) ||
  (* 5 category, 6 account *)
  existsb (namesCategory transcript) categories ||
  existsb (namesAccount transcript) accounts ||
  (* 7 recurring flag *)
  includes transcript "recurring yes" || includes transcript "set recurring" ||
  includes transcript "recurring no" || includes transcript "not recurring" ||
  (* 8 interval *)
  namesInterval transcript ||
  (* 9 submit *)
  includes transcript "submit" || includes transcript "save transaction".

(* ----------------------------------------------------------------- *)
(** *** The notifications of one voice command, block by block *)

Definition shown (v : option string) : string :=
  match v with
  | Some a => a
  | None => "undefined"
  end.

Definition typeToasts (t : string) : list string :=
  if includes t "expense" || includes t "spending" then
    ["Set type to Expense"]
  else if includes t "income" || includes t "earning" then
    ["Set type to Income"]
  else [].

Definition amountToasts (t : string) : list string :=
  match exec amountRe t with
  | Some m => ["Set amount to " ++ shown (orElse (m 1) (m 3))]
  | None => []
  end.

Definition dateToasts (t : string) : list string :=
  if includes t "today" then ["Set date to today"]
  else if includes t "yesterday" then ["Set date to yesterday"]
  else [].

Definition descriptionToasts (t : string) : list string :=
  match exec descriptionRe t with
  | Some m => ["Set description to " ++ shown (option_map trim (m 1))]
  | None => []
  end.

Definition categoryToasts (categories : list Category) (t : string)
  : list string :=
  match find (namesCategory t) categories with
  | Some c => ["Set category to " ++ cat_name c]
  | None => []
  end.

Definition accountToasts (accounts : list Account) (t : string)
  : list string :=
  match find (namesAccount t) accounts with
  | Some a => ["Set account to " ++ acc_name a]
  | None => []
  end.

Definition recurringToasts (t : string) : list string :=
  if includes t "recurring yes" || includes t "set recurring" then
    ["Enabled recurring transaction"]
  else if includes t "recurring no" || includes t "not recurring" then
    ["Disabled recurring transaction"]
  else [].

Definition intervalToasts (t : string) : list string :=
  if includes t "daily" then ["Set recurring interval to daily"]
  else if includes t "weekly" then ["Set recurring interval to weekly"]
  else if includes t "monthly" then ["Set recurring interval to monthly"]
  else if includes t "yearly" then ["Set recurring interval to yearly"]
  else [].

Definition submitToasts (t : string) : list string :=
  if includes t "submit" || includes t "save transaction" then
    ["Submitting form..."]
  else [].

Definition voiceToasts (categories : list Category)
  (accounts : list Account) (t : string) : list string :=
  typeToasts t ++ amountToasts t ++ dateToasts t ++ descriptionToasts t ++
  categoryToasts categories t ++ accountToasts accounts t ++
  recurringToasts t ++ intervalToasts t ++ submitToasts t.

(* ----------------------------------------------------------------- *)
(** *** filteredCategories *)

Definition TransactionType_eqb (a b : TransactionType) : bool :=
  match a, b with
  | EXPENSE, EXPENSE | INCOME, INCOME => true
  | _, _ => false
  end.

(** [categories.filter((category) => category.type === type)]: what the
    category select offers. *)
Definition filteredCategories (categories : list Category)
  (type : TransactionType) : list Category :=
  filter (fun category => TransactionType_eqb (cat_type category) type)
         categories.

(** What the two loops of the interpreter read of the lists. *)
Definition categoryKeys (categories : list Category)
  : list (string * string) :=
  map (fun c => (cat_id c, toLowerCase (cat_name c))) categories.

Definition accountKeys (accounts : list Account) : list (string * string) :=
  map (fun a => (acc_id a, toLowerCase (acc_name a))) accounts.

(* ----------------------------------------------------------------- *)
(** *** The speech recognition session *)

(** The recognition object as the mount effect configures it. *)
Record Recognition : Type := mkRecognition {
  continuous : bool;
  interimResults : bool
}.

(** The three [useState] cells of the voice input. *)
Record VoiceState : Type := mkVoiceState {
  isListening : bool;
  voiceStatus : string;
  recognition : option Recognition
}.

Definition initialVoiceState : VoiceState := mkVoiceState false "" None.

(** Calls made on the recognition object. *)
Inductive SpeechCommand : Set := StartRecognition | StopRecognition.

(** Events the recognition object reports. *)
Inductive SpeechEvent : Type :=
  | EvStart
  | EvEnd
  | EvError (error : string)
  | EvResult (transcript : string) (now : Date).

Record Component : Type := mkComponent {
  voiceState : VoiceState;
  form : Form
}.

(** The body of the mount effect: [hasWindow] is
    [typeof window !== 'undefined'], [supported] is whether
    [window.SpeechRecognition || window.webkitSpeechRecognition] exists. *)
Definition initSpeech (hasWindow supported : bool) (v : VoiceState)
  : VoiceState :=
  if hasWindow then
    if supported then
      mkVoiceState (isListening v) (voiceStatus v)
                   (Some (mkRecognition true true))
    else
      mkVoiceState (isListening v)
                   "Speech recognition not supported by your browser"
                   (recognition v)
  else v.

(** The cleanup the effect returns: it reads [recognition] from the render
    that created the effect. *)
Definition cleanup (rendered : VoiceState) : option SpeechCommand :=
  match recognition rendered with
  | Some _ => Some StopRecognition
  | None => None
  end.

(** The effect has no dependencies, so it is the one of the first render,
    whose state is the initial one. *)
Definition mountSpeech (hasWindow supported : bool)
  : VoiceState * option SpeechCommand :=
  (initSpeech hasWindow supported initialVoiceState,
   cleanup initialVoiceState).

(** The four handlers; a result comes with the time it is handled at. *)
Definition handleEvent (categories : list Category)
  (accounts : list Account) (e : SpeechEvent) (c : Component)
  : Component :=
  let v := voiceState c in
  match e with
  | EvStart =>
      mkComponent (mkVoiceState true "Listening..." (recognition v)) (form c)
  | EvEnd =>
      mkComponent (mkVoiceState false "" (recognition v)) (form c)
  | EvError error =>
      mkComponent (mkVoiceState false ("Error: " ++ error) (recognition v))
                  (form c)
  | EvResult heard now =>
      mkComponent
        (mkVoiceState (isListening v) ("I heard: " ++ toLowerCase heard)
                      (recognition v))
        (onresult categories accounts now heard (form c))
  end.

Fixpoint handleEvents (categories : list Category)
  (accounts : list Account) (events : list SpeechEvent)
  (c : Component) : Component :=
  match events with
  | [] => c
  | e :: more =>
      handleEvents categories accounts more
        (handleEvent categories accounts e c)
  end.

(** [toggleListening]: [recognition?.stop()] or [recognition?.start()]. *)
Definition toggleListening (v : VoiceState) : option SpeechCommand :=
  if isListening v then
    match recognition v with
    | Some _ => Some StopRecognition
    | None => None
    end
  else
    match recognition v with
    | Some _ => Some StartRecognition
    | None => None
    end.

(** While listening, the status line reads "Listening..." or what was
    heard last. *)
Definition statusWhileListening (v : VoiceState) : Prop :=
  isListening v = true ->
  voiceStatus v = "Listening..." \/
  exists heard, voiceStatus v = "I heard: " ++ toLowerCase heard.

Definition isResult (e : SpeechEvent) : bool :=
  match e with
  | EvResult _ _ => true
  | _ => false
  end.

End Form.

Unset Maximal Implicit Insertion.
Unset Implicit Arguments.

Arguments EvStart {Date}.
Arguments EvEnd {Date}.
Arguments EvError {Date} error.

(* ================================================================= *)
(** ** A concrete host for examples

    Numbers are naturals printed in decimal, a date is a day number, and a
    date source is already a day number. *)

Module Demo.

Definition Number_toString (n : nat) : string :=
  NilEmpty.string_of_uint (Nat.to_uint n).

Definition Date_from (d : nat) : nat := d.

Definition Date_previousDay (d : nat) : nat := Nat.pred d.

Definition today : nat := 200.

Definition accounts : list (Account nat) :=
  [ mkAccount "acc-1" "Savings" 120 false;
    mkAccount "acc-2" "Personal" 35 true;
    mkAccount "acc-3" "Work" 90 true ].

Definition categories : list Category :=
  [ mkCategory "salary" "Salary" INCOME;
    mkCategory "food" "Food" EXPENSE;
    mkCategory "groceries" "Groceries" EXPENSE ].

(** The form as it opens in create mode. *)
Definition fresh : Form nat :=
  initialForm Number_toString Date_from accounts false None today.

Definition weeklyRent : InitialData nat nat :=
  mkInitialData EXPENSE 900 (Some "rent") (Some "acc-2") (Some "housing")
                190 true (Some WEEKLY).

Definition receipt : ScannedData nat nat :=
  mkScannedData 12 123 None None.

Definition voice (transcript : string) : Form nat -> Form nat :=
  processVoiceCommand Date_previousDay categories accounts today transcript.

Definition scan (d : ScannedData nat nat) : Form nat -> Form nat :=
  handleScanComplete Number_toString Date_from (Some d).

(** A draft of type INCOME with a description and a category. *)
Definition salaryDraft : Form nat :=
  voice "income description may salary category salary" fresh.

Definition Reached : Form nat -> Prop :=
  Reachable Number_toString Date_from Date_previousDay anyTranscript.

(** The same lists with other letter case and other types. *)
Definition categoriesShouted : list Category :=
  [ mkCategory "salary" "SALARY" EXPENSE;
    mkCategory "food" "FOOD" INCOME;
    mkCategory "groceries" "GROCERIES" INCOME ].

Definition accountsShouted : list (Account nat) :=
  [ mkAccount "acc-1" "SAVINGS" 0 true;
    mkAccount "acc-2" "PERSONAL" 0 false;
    mkAccount "acc-3" "WORK" 0 false ].

(** A draft with every optional field set. *)
Definition weeklySalary : Form nat :=
  voice "amount 900 set recurring weekly" salaryDraft.

(** The component after mount in a browser with speech recognition, and
    what a session may report. *)
Definition mounted : Component nat :=
  mkComponent (fst (mountSpeech true true)) fresh.

Definition session : list (SpeechEvent nat) :=
  [ EvStart; EvResult "Amount 50" 200; EvError "no-speech";
    EvStart; EvResult "Category Food" 201 ].

Definition hear : list (SpeechEvent nat) -> Component nat -> Component nat :=
  handleEvents Date_previousDay categories accounts.

End Demo.

(* ================================================================= *)
(** ** The amount pattern on a transcript *)

Lemma plusGreedy_no_head {R : Type} (p : ascii -> bool) (s : string)
  (k : Cont R) :
  headIs p s = false -> plusGreedy p s k = None.
Proof.
  destruct s as [|a s]; simpl; [reflexivity|].
  intros ->; reflexivity.
Qed.

Lemma exec_next (r : regex) (a : ascii) (s : string) :
  matchHere r (String a s) = None -> exec r (String a s) = exec r s.
Proof. intros H; simpl; rewrite H; reflexivity. Qed.

Lemma exec_here (r : regex) (s : string) (c : Captures) :
  matchHere r s = Some c -> exec r s = Some c.
Proof. intros H; destruct s; simpl; rewrite H; reflexivity. Qed.

Lemma append_empty_r (s : string) : s ++ "" = s.
Proof. induction s as [|a s IH]; simpl; [|rewrite IH]; reflexivity. Qed.

Lemma append_assoc (s1 s2 s3 : string) : (s1 ++ s2) ++ s3 = s1 ++ s2 ++ s3.
Proof. induction s1 as [|a s1 IH]; simpl; [|rewrite IH]; reflexivity. Qed.

Lemma stripPrefix_app (l s : string) : stripPrefix l (l ++ s) = Some s.
Proof.
  induction l as [|a l IH]; simpl; [reflexivity|].
  rewrite Ascii.eqb_refl; exact IH.
Qed.

Lemma stripPrefix_Some (l s rest : string) :
  stripPrefix l s = Some rest -> s = l ++ rest.
Proof.
  revert s; induction l as [|a l IH]; intros s; simpl.
  - intros [= ->]; reflexivity.
  - destruct s as [|b s]; [discriminate|].
    destruct (Ascii.eqb a b) eqn:E; [|discriminate].
    apply Ascii.eqb_eq in E; subst b.
    intros H; rewrite (IH _ H); reflexivity.
Qed.

Lemma startsWith_app (l s : string) : startsWith (l ++ s) l = true.
Proof.
  induction l as [|a l IH]; simpl; [reflexivity|].
  rewrite Ascii.eqb_refl; exact IH.
Qed.

(** A transcript built around a phrase contains it. *)
Lemma includes_app (pre l post : string) :
  includes (pre ++ l ++ post) l = true.
Proof.
  induction pre as [|a pre IH].
  - change ("" ++ l ++ post) with (l ++ post).
    destruct (l ++ post) eqn:E; cbn [includes]; rewrite <- E;
      rewrite startsWith_app; reflexivity.
  - change (String a pre ++ l ++ post) with (String a (pre ++ l ++ post)).
    cbn [includes]. rewrite IH. apply orb_true_r.
Qed.

(** The matcher's equations, one step at a time. *)
Lemma rmatch_Seq r1 r2 s c k :
  rmatch (Seq r1 r2) s c k =
  rmatch r1 s c (fun t1 s1 c1 =>
    rmatch r2 s1 c1 (fun t2 s2 c2 => k (t1 ++ t2) s2 c2)).
Proof. reflexivity. Qed.

Lemma rmatch_Alt r1 r2 s c k :
  rmatch (Alt r1 r2) s c k =
  orTry (rmatch r1 s c k) (fun _ => rmatch r2 s c k).
Proof. reflexivity. Qed.

Lemma rmatch_Grp n r s c k :
  rmatch (Grp n r) s c k =
  rmatch r s c (fun t rest c1 => k t rest (setCapture n t c1)).
Proof. reflexivity. Qed.

Lemma rmatch_PlusG p s c k :
  rmatch (PlusG p) s c k = plusGreedy p s (fun t rest => k t rest c).
Proof. reflexivity. Qed.

Lemma rmatch_Lit l s c k :
  rmatch (Lit l) s c k =
  match stripPrefix l s with Some rest => k l rest c | None => None end.
Proof. reflexivity. Qed.

Lemma rmatch_Lit_app (l s : string) (c : Captures) k :
  rmatch (Lit l) (l ++ s) c k = k l s c.
Proof. cbn [rmatch]; rewrite stripPrefix_app; reflexivity. Qed.

(** A maximal run of the class is tried first. *)
Lemma plusGreedy_run {R : Type} (p : ascii -> bool) (run rest : string)
  (k : Cont R) (r : R) :
  run <> "" -> allChars p run = true -> headIs p rest = false ->
  k run rest = Some r ->
  plusGreedy p (run ++ rest) k = Some r.
Proof.
  revert k; induction run as [|a run IH]; intros k Hne Hall Hrest Hk;
    [contradiction|].
  simpl in Hall; apply andb_true_iff in Hall as [Ha Hall].
  simpl; rewrite Ha.
  destruct run as [|b run].
  - simpl append. rewrite (plusGreedy_no_head _ _ _ Hrest). exact Hk.
  - rewrite (IH (fun t rest0 => k (String a t) rest0)); auto; discriminate.
Qed.

(** The optional fraction is skipped when no dot and digit follow. *)
Lemma fraction_skip (g : nat) (s : string) (c : Captures) k :
  numberGoesOn s = false ->
  rmatch (Opt (Grp g (Seq (Lit ".") (PlusG isDigit)))) s c k = k "" s c.
Proof.
  intros H; apply orb_false_iff in H as [_ H].
  cbn [rmatch stripPrefix].
  destruct s as [|a s]; [reflexivity|].
  destruct (Ascii.eqb "." a); [|reflexivity].
  simpl in H. rewrite (plusGreedy_no_head _ _ _ H); reflexivity.
Qed.

(** [decimal] reads a whole run of digits when the number ends there. *)
Lemma decimal_integer (g : nat) (ds rest : string) (c r : Captures) k :
  ds <> "" -> allChars isDigit ds = true -> numberGoesOn rest = false ->
  k ds rest c = Some r ->
  rmatch (decimal g) (ds ++ rest) c k = Some r.
Proof.
  intros Hne Hall Hrest Hk.
  unfold decimal; rewrite rmatch_Seq, rmatch_PlusG.
  apply plusGreedy_run; auto.
  - apply orb_false_iff in Hrest as [H _]; exact H.
  - rewrite fraction_skip by exact Hrest.
    rewrite append_empty_r; exact Hk.
Qed.

Lemma digit_not_keyword (s : string) :
  headIs isDigit s = true -> stripPrefix "amount " s = None.
Proof.
  destruct s as [|a s]; cbn [stripPrefix headIs]; [reflexivity|].
  destruct (Ascii.eqb "a" a) eqn:E; [|reflexivity].
  apply Ascii.eqb_eq in E; subst a; discriminate.
Qed.

(** "amount <digits>" at the start of the input. *)
Lemma matchHere_amount_keyword (ds rest : string) :
  ds <> "" -> allChars isDigit ds = true -> numberGoesOn rest = false ->
  matchHere amountRe ("amount " ++ ds ++ rest) =
  Some (setCapture 0 ("amount " ++ ds) (setCapture 1 ds noCaptures)).
Proof.
  intros Hne Hall Hrest.
  unfold matchHere, amountRe.
  rewrite rmatch_Alt, rmatch_Seq, rmatch_Lit_app, rmatch_Grp.
  rewrite (decimal_integer 2 ds rest noCaptures
             (setCapture 0 ("amount " ++ ds) (setCapture 1 ds noCaptures)));
    auto.
Qed.

(** "<digits> dollars" at the start of the input. *)
Lemma matchHere_amount_dollars (ds post : string) :
  ds <> "" -> allChars isDigit ds = true ->
  matchHere amountRe (ds ++ " dollars" ++ post) =
  Some (setCapture 0 (ds ++ " dollars") (setCapture 3 ds noCaptures)).
Proof.
  intros Hne Hall.
  assert (Hd : headIs isDigit (ds ++ " dollars" ++ post) = true).
  { destruct ds as [|a ds]; [contradiction|].
    simpl in Hall; apply andb_true_iff in Hall as [Ha _]; exact Ha. }
  unfold matchHere, amountRe.
  rewrite rmatch_Alt, rmatch_Seq, rmatch_Lit, (digit_not_keyword _ Hd).
  cbn [orTry]. rewrite rmatch_Seq, rmatch_Grp.
  apply decimal_integer; auto.
Qed.

(** No match starts where neither a digit nor "amount <digit>" stands. *)
Lemma matchHere_amount_none (s : string) :
  headIs isDigit s = false ->
  match stripPrefix "amount " s with
  | Some rest => headIs isDigit rest = false
  | None => True
  end ->
  matchHere amountRe s = None.
Proof.
  intros Hd Ha.
  unfold matchHere, amountRe, decimal.
  rewrite rmatch_Alt, rmatch_Seq, rmatch_Lit.
  assert (H2 : forall k, rmatch
      (Seq (Grp 3 (Seq (PlusG isDigit)
                       (Opt (Grp 4 (Seq (Lit ".") (PlusG isDigit))))))
           (Lit " dollars")) s noCaptures k = None).
  { intros k. rewrite rmatch_Seq, rmatch_Grp, rmatch_Seq, rmatch_PlusG.
    apply plusGreedy_no_head; exact Hd. }
  destruct (stripPrefix "amount " s) as [rest|].
  - rewrite rmatch_Grp, rmatch_Seq, rmatch_PlusG.
    rewrite (plusGreedy_no_head _ _ _ Ha); cbn [orTry]. apply H2.
  - cbn [orTry]. apply H2.
Qed.

Lemma allChars_app (p : ascii -> bool) (s1 s2 : string) :
  allChars p (s1 ++ s2) = allChars p s1 && allChars p s2.
Proof.
  induction s1 as [|a s1 IH]; simpl; [reflexivity|].
  rewrite IH; apply andb_assoc.
Qed.

Lemma length_append (s1 s2 : string) :
  length (s1 ++ s2) = length s1 + length s2.
Proof. induction s1 as [|a s1 IH]; simpl; [|rewrite IH]; reflexivity. Qed.

(** When a literal is found across the end of a digit-free text and is
    followed by a digit, the text is the beginning of the literal. *)
Lemma keyword_across (lit pre R rest : string) :
  noDigit pre = true ->
  stripPrefix lit (pre ++ R) = Some rest ->
  headIs isDigit rest = true ->
  exists q, lit = pre ++ q /\ stripPrefix q R = Some rest.
Proof.
  revert pre; induction lit as [|a lit IH]; intros pre Hpre Hs Hd.
  - cbn [stripPrefix] in Hs. injection Hs as <-.
    destruct pre as [|b pre].
    + exists ""; split; reflexivity.
    + unfold noDigit in Hpre; simpl in Hpre, Hd.
      rewrite Hd in Hpre; discriminate.
  - destruct pre as [|b pre].
    + exists (String a lit); split; [reflexivity | exact Hs].
    + change (String b pre ++ R) with (String b (pre ++ R)) in Hs.
      cbn [stripPrefix] in Hs.
      destruct (Ascii.eqb a b) eqn:E; [|discriminate].
      apply Ascii.eqb_eq in E; subst b.
      unfold noDigit in Hpre; cbn [allChars] in Hpre.
      apply andb_true_iff in Hpre as [_ Hpre].
      destruct (IH pre Hpre Hs Hd) as (q & -> & Hq).
      exists q; split; [reflexivity | exact Hq].
Qed.

(** Inside a digit-free literal no digit can follow. *)
Lemma strip_short (q lit X rest : string) :
  length q < length lit -> noDigit lit = true ->
  stripPrefix q (lit ++ X) = Some rest ->
  headIs isDigit rest = false.
Proof.
  revert lit; induction q as [|a q IH]; intros lit Hlen Hlit Hs.
  - cbn [stripPrefix] in Hs. injection Hs as <-.
    destruct lit as [|b lit]; [simpl in Hlen; lia|].
    unfold noDigit in Hlit; simpl in Hlit |- *.
    apply andb_true_iff in Hlit as [Hb _].
    apply negb_true_iff in Hb; exact Hb.
  - destruct lit as [|b lit]; [simpl in Hlen; lia|].
    change (String b lit ++ X) with (String b (lit ++ X)) in Hs.
    cbn [stripPrefix] in Hs.
    destruct (Ascii.eqb a b); [|discriminate].
    unfold noDigit in Hlit; cbn [allChars] in Hlit.
    apply andb_true_iff in Hlit as [_ Hlit].
    apply (IH lit); [simpl in Hlen; lia | exact Hlit | exact Hs].
Qed.

Lemma noDigit_head (a : ascii) (s : string) :
  noDigit (String a s) = true ->
  headIs isDigit (String a s) = false /\ noDigit s = true.
Proof.
  unfold noDigit; cbn [allChars headIs]; intros H.
  apply andb_true_iff in H as [Ha Hs]; apply negb_true_iff in Ha; auto.
Qed.

(** "amount <digits>" after a digit-free beginning is the leftmost match. *)
Lemma exec_amount_keyword (pre ds post : string) :
  noDigit pre = true ->
  ds <> "" -> allChars isDigit ds = true -> numberGoesOn post = false ->
  exec amountRe (pre ++ "amount " ++ ds ++ post) =
  Some (setCapture 0 ("amount " ++ ds) (setCapture 1 ds noCaptures)).
Proof.
  intros Hpre Hne Hds Hpost.
  induction pre as [|a pre IH].
  - apply exec_here, matchHere_amount_keyword; assumption.
  - destruct (noDigit_head _ _ Hpre) as [Ha Hpre'].
    change (String a pre ++ "amount " ++ ds ++ post)
      with (String a (pre ++ "amount " ++ ds ++ post)).
    rewrite exec_next; [exact (IH Hpre')|].
    apply matchHere_amount_none; [exact Ha|].
    change (String a (pre ++ "amount " ++ ds ++ post))
      with (String a pre ++ "amount " ++ ds ++ post).
    destruct (stripPrefix "amount " (String a pre ++ "amount " ++ ds ++ post))
      as [rest|] eqn:E; [|exact I].
    destruct (headIs isDigit rest) eqn:Hr; [|reflexivity].
    destruct (keyword_across _ _ _ _ Hpre E Hr) as (q & Hq & Hs).
    rewrite <- Hr.
    apply (strip_short q "amount " (ds ++ post)); [|reflexivity|exact Hs].
    apply (f_equal length) in Hq; rewrite length_append in Hq.
    simpl in Hq |- *; lia.
Qed.

(** "<digits> dollars" after a digit-free beginning: the leftmost match reads
    these digits, through either alternative. *)
Lemma exec_amount_dollars (pre ds post : string) :
  noDigit pre = true ->
  ds <> "" -> allChars isDigit ds = true ->
  exists m, exec amountRe (pre ++ ds ++ " dollars" ++ post) = Some m /\
            orElse (m 1) (m 3) = Some ds.
Proof.
  intros Hpre Hne Hds.
  assert (Hd : headIs isDigit (ds ++ " dollars" ++ post) = true).
  { destruct ds as [|d ds]; [contradiction|].
    simpl in Hds; apply andb_true_iff in Hds as [Hd _]; exact Hd. }
  induction pre as [|a pre IH].
  - eexists; split.
    + apply exec_here, matchHere_amount_dollars; assumption.
    + reflexivity.
  - destruct (noDigit_head _ _ Hpre) as [Ha Hpre'].
    destruct (stripPrefix "amount " (String a pre ++ ds ++ " dollars" ++ post))
      as [rest|] eqn:E.
    2:{ change (String a pre ++ ds ++ " dollars" ++ post)
          with (String a (pre ++ ds ++ " dollars" ++ post)) in *.
        rewrite exec_next; [exact (IH Hpre')|].
        apply matchHere_amount_none; [exact Ha | rewrite E; exact I]. }
    destruct (headIs isDigit rest) eqn:Hr.
    2:{ change (String a pre ++ ds ++ " dollars" ++ post)
          with (String a (pre ++ ds ++ " dollars" ++ post)) in *.
        rewrite exec_next; [exact (IH Hpre')|].
        apply matchHere_amount_none; [exact Ha | rewrite E; exact Hr]. }
    destruct (keyword_across _ _ _ _ Hpre E Hr) as (q & Hq & Hs).
    destruct q as [|x q].
    + rewrite append_empty_r in Hq. rewrite <- Hq.
      eexists; split.
      * apply exec_here.
        apply (matchHere_amount_keyword ds (" dollars" ++ post));
          [assumption | assumption | reflexivity].
      * unfold orElse, setCapture; cbn [Nat.eqb truthy].
        destruct ds; [contradiction | reflexivity].
    + exfalso.
      destruct (ds ++ " dollars" ++ post) as [|d R]; [discriminate|].
      cbn [stripPrefix] in Hs; cbn [headIs] in Hd.
      destruct (Ascii.eqb x d) eqn:Ex; [|discriminate].
      apply Ascii.eqb_eq in Ex; subst d.
      assert (Hl : noDigit "amount " = true) by reflexivity.
      rewrite Hq in Hl. unfold noDigit in Hl.
      rewrite allChars_app in Hl. apply andb_true_iff in Hl as [_ Hl].
      cbn [allChars] in Hl. rewrite Hd in Hl. discriminate.
Qed.

(* ================================================================= *)
(** ** Which captures a match defines *)

Lemma plusGreedy_sound {R : Type} (p : ascii -> bool) (s : string)
  (k : Cont R) (res : R) :
  plusGreedy p s k = Some res ->
  exists t s', k t s' = Some res /\ t <> "".
Proof.
  revert k; induction s as [|a s IH]; intros k; cbn [plusGreedy];
    [discriminate|].
  destruct (p a); [|discriminate].
  destruct (plusGreedy p s (fun t rest => k (String a t) rest)) eqn:E;
    cbn [orTry].
  - intros [= ->]. destruct (IH _ E) as (t & s' & Hk & _).
    exists (String a t), s'; split; [exact Hk | discriminate].
  - intros Hk. exists (String a ""), s; split; [exact Hk | discriminate].
Qed.

Lemma plusLazy_sound {R : Type} (p : ascii -> bool) (s : string)
  (k : Cont R) (res : R) :
  plusLazy p s k = Some res ->
  exists t s', k t s' = Some res /\ t <> "".
Proof.
  revert k; induction s as [|a s IH]; intros k; cbn [plusLazy];
    [discriminate|].
  destruct (p a); [|discriminate].
  destruct (k (String a "") s) eqn:E; cbn [orTry].
  - intros [= ->]. exists (String a ""), s; split; [exact E | discriminate].
  - intros H. destruct (IH _ H) as (t & s' & Hk & _).
    exists (String a t), s'; split; [exact Hk | discriminate].
Qed.

Lemma append_nonempty (t1 t2 : string) :
  t1 <> "" \/ t2 <> "" -> t1 ++ t2 <> "".
Proof.
  destruct t1 as [|a t1]; cbn [append]; [|discriminate].
  intros [H | H]; [contradiction | exact H].
Qed.

Lemma truthy_nonempty (t : string) : t <> "" -> truthy (Some t) = true.
Proof. destruct t; [contradiction | reflexivity]. Qed.

(** A successful match is a successful call of the continuation, on a text
    and captures that obey the static facts of the pattern. *)
Lemma rmatch_sound (r : regex) :
  forall s c k res,
    rmatch r s c k = Some res ->
    exists t s' c',
      k t s' c' = Some res /\
      (consumes r = true -> t <> "") /\
      (forall n, fills r n = true -> truthy (c' n) = true) /\
      (forall n, mentions r n = false -> c' n = c n).
Proof.
  induction r as [l | p | | r1 IH1 r2 IH2 | r1 IH1 r2 IH2 | p | p
                 | r1 IH1 | m r1 IH1];
    intros s c k res H; cbn [rmatch] in H.
  - destruct (stripPrefix l s) as [rest|]; [|discriminate].
    exists l, rest, c; repeat split; try discriminate; auto.
    cbn [consumes]; intros E ->; discriminate.
  - destruct s as [|a s]; [discriminate|].
    destruct (p a); [|discriminate].
    exists (String a ""), s, c; repeat split; try discriminate; auto.
  - destruct s; [|discriminate].
    exists "", "", c; repeat split; try discriminate; auto.
  - destruct (IH1 _ _ _ _ H) as (t1 & s1 & c1 & H1 & N1 & F1 & M1).
    destruct (IH2 _ _ _ _ H1) as (t2 & s2 & c2 & H2 & N2 & F2 & M2).
    exists (t1 ++ t2), s2, c2; split; [exact H2|]. split; [|split].
    + cbn [consumes]; intros E; apply append_nonempty.
      apply orb_true_iff in E as [E | E]; [left | right]; auto.
    + intros n E; cbn [fills] in E.
      apply orb_true_iff in E as [E | E]; [|auto].
      apply andb_true_iff in E as [E1 E2]; apply negb_true_iff in E2.
      rewrite (M2 n E2); auto.
    + intros n E; cbn [mentions] in E.
      apply orb_false_iff in E as [E1 E2].
      rewrite (M2 n E2); auto.
  - destruct (rmatch r1 s c k) eqn:E1; cbn [orTry] in H.
    + injection H as ->.
      destruct (IH1 _ _ _ _ E1) as (t & s' & c' & Hk & N & F & M).
      exists t, s', c'; split; [exact Hk|]. split; [|split].
      * cbn [consumes]; intros E; apply andb_true_iff in E as [E _]; auto.
      * intros n E; cbn [fills] in E;
          apply andb_true_iff in E as [E _]; auto.
      * intros n E; cbn [mentions] in E;
          apply orb_false_iff in E as [E _]; auto.
    + destruct (IH2 _ _ _ _ H) as (t & s' & c' & Hk & N & F & M).
      exists t, s', c'; split; [exact Hk|]. split; [|split].
      * cbn [consumes]; intros E; apply andb_true_iff in E as [_ E]; auto.
      * intros n E; cbn [fills] in E;
          apply andb_true_iff in E as [_ E]; auto.
      * intros n E; cbn [mentions] in E;
          apply orb_false_iff in E as [_ E]; auto.
  - destruct (plusGreedy_sound _ _ _ _ H) as (t & s' & Hk & Hne).
    exists t, s', c; repeat split; try discriminate; auto.
  - destruct (plusLazy_sound _ _ _ _ H) as (t & s' & Hk & Hne).
    exists t, s', c; repeat split; try discriminate; auto.
  - destruct (rmatch r1 s c k) eqn:E1; cbn [orTry] in H.
    + injection H as ->.
      destruct (IH1 _ _ _ _ E1) as (t & s' & c' & Hk & _ & _ & M).
      exists t, s', c'; repeat split; try discriminate; auto.
    + exists "", s, c; repeat split; try discriminate; auto.
  - destruct (IH1 _ _ _ _ H) as (t & s' & c1 & Hk & N & F & M).
    exists t, s', (setCapture m t c1); split; [exact Hk|].
    split; [exact N|]. split.
    + intros n E; cbn [fills] in E; unfold setCapture.
      destruct (Nat.eqb n m); [apply truthy_nonempty|]; auto.
    + intros n E; cbn [mentions] in E; unfold setCapture.
      apply orb_false_iff in E as [E1 E2]. rewrite E1; auto.
Qed.

Lemma matchHere_sound (r : regex) (s : string) (m : Captures) (n : nat) :
  matchHere r s = Some m -> n <> 0 -> fills r n = true ->
  truthy (m n) = true.
Proof.
  unfold matchHere; intros H Hn Hf.
  destruct (rmatch_sound _ _ _ _ _ H) as (t & s' & c' & Hk & _ & F & _).
  injection Hk as <-. unfold setCapture.
  apply Nat.eqb_neq in Hn; rewrite Hn; auto.
Qed.

(** The captured description is always a text. *)
Lemma description_capture_defined (t : string) (m : Captures) :
  exec descriptionRe t = Some m -> truthy (m 1) = true.
Proof.
  induction t as [|a t IH]; cbn [exec];
    destruct (matchHere descriptionRe _) eqn:E; cbn [orTry];
    try discriminate; try exact IH;
    intros [= ->]; apply (matchHere_sound _ _ _ 1 E); auto.
Qed.

(** The amount taken from a match is always a non-empty text. *)
Lemma amount_capture_defined (t : string) (m : Captures) :
  exec amountRe t = Some m -> truthy (orElse (m 1) (m 3)) = true.
Proof.
  assert (Here : forall s, matchHere amountRe s = Some m ->
                           truthy (orElse (m 1) (m 3)) = true).
  { intros s H. unfold matchHere, amountRe in H.
    rewrite rmatch_Alt in H.
    match type of H with orTry ?a _ = _ => destruct a eqn:E end;
      cbn [orTry] in H.
    - injection H as ->.
      assert (T : truthy (m 1) = true)
        by (apply (matchHere_sound _ _ _ 1 E); auto).
      unfold orElse; rewrite T; exact T.
    - assert (T : truthy (m 3) = true)
        by (apply (matchHere_sound _ _ _ 3 H); auto).
      unfold orElse; destruct (truthy (m 1)) eqn:T1; auto. }
  induction t as [|a t IH]; cbn [exec];
    destruct (matchHere amountRe _) eqn:E; cbn [orTry];
    try discriminate; try exact IH;
    intros [= ->]; apply (Here _ E).
Qed.

(* ================================================================= *)
(** ** The amount pattern: any number, and the shape of what it reads *)

Lemma isDigits_parts (ds : string) :
  isDigits ds = true -> ds <> "" /\ allChars isDigit ds = true.
Proof.
  unfold isDigits; intros H; apply andb_true_iff in H as [H1 H2].
  split; [|exact H2]. intros ->; discriminate.
Qed.

Lemma isDigits_head (ds rest : string) :
  isDigits ds = true -> headIs isDigit (ds ++ rest) = true.
Proof.
  unfold isDigits; intros H; apply andb_true_iff in H as [H1 _].
  destruct ds; [discriminate | exact H1].
Qed.

Lemma rmatch_Opt r s c k :
  rmatch (Opt r) s c k = orTry (rmatch r s c k) (fun _ => k "" s c).
Proof. reflexivity. Qed.

(** [decimal] reads digits, a dot and digits when no digit follows. *)
Lemma decimal_fraction (g : nat) (ds fs rest : string) (c r : Captures) k :
  isDigits ds = true -> isDigits fs = true -> headIs isDigit rest = false ->
  k (ds ++ "." ++ fs) rest (setCapture g ("." ++ fs) c) = Some r ->
  rmatch (decimal g) (ds ++ "." ++ fs ++ rest) c k = Some r.
Proof.
  intros Hds Hfs Hrest Hk.
  destruct (isDigits_parts _ Hds) as [Hne Hall].
  destruct (isDigits_parts _ Hfs) as [Hne' Hall'].
  unfold decimal; rewrite rmatch_Seq, rmatch_PlusG.
  apply plusGreedy_run; auto.
  rewrite rmatch_Opt, rmatch_Grp, rmatch_Seq.
  change ("." ++ fs ++ rest) with ("." ++ (fs ++ rest)).
  rewrite rmatch_Lit_app, rmatch_PlusG.
  rewrite (plusGreedy_run isDigit fs rest _ r); auto.
Qed.

Lemma noDigit_app (s1 s2 : string) :
  noDigit (s1 ++ s2) = noDigit s1 && noDigit s2.
Proof. apply allChars_app. Qed.

Lemma noDigit_headIs (s : string) :
  noDigit s = true -> headIs isDigit s = false.
Proof.
  destruct s as [|a s]; [reflexivity|].
  intros H; apply (noDigit_head _ _ H).
Qed.

(** No match of the amount pattern starts inside a digit-free text that
    stands before the keyword. *)
Lemma exec_amount_skip (pre X : string) :
  noDigit pre = true ->
  exec amountRe (pre ++ "amount " ++ X) = exec amountRe ("amount " ++ X).
Proof.
  intros Hpre.
  induction pre as [|a pre IH]; [reflexivity|].
  destruct (noDigit_head _ _ Hpre) as [Ha Hpre'].
  change (String a pre ++ "amount " ++ X)
    with (String a (pre ++ "amount " ++ X)).
  rewrite exec_next; [exact (IH Hpre')|].
  apply matchHere_amount_none; [exact Ha|].
  change (String a (pre ++ "amount " ++ X))
    with (String a pre ++ "amount " ++ X).
  destruct (stripPrefix "amount " (String a pre ++ "amount " ++ X))
    as [rest|] eqn:E; [|exact I].
  destruct (headIs isDigit rest) eqn:Hr; [|reflexivity].
  destruct (keyword_across _ _ _ _ Hpre E Hr) as (q & Hq & Hs).
  rewrite <- Hr.
  apply (strip_short q "amount " X); [|reflexivity|exact Hs].
  apply (f_equal length) in Hq; rewrite length_append in Hq.
  simpl in Hq |- *; lia.
Qed.

Lemma matchHere_amount_keyword_fraction (ds fs post : string) :
  isDigits ds = true -> isDigits fs = true -> headIs isDigit post = false ->
  matchHere amountRe ("amount " ++ ds ++ "." ++ fs ++ post) =
  Some (setCapture 0 ("amount " ++ ds ++ "." ++ fs)
         (setCapture 1 (ds ++ "." ++ fs)
            (setCapture 2 ("." ++ fs) noCaptures))).
Proof.
  intros Hds Hfs Hpost.
  unfold matchHere, amountRe.
  rewrite rmatch_Alt, rmatch_Seq, rmatch_Lit_app, rmatch_Grp.
  rewrite (decimal_fraction 2 ds fs post noCaptures
             (setCapture 0 ("amount " ++ ds ++ "." ++ fs)
                (setCapture 1 (ds ++ "." ++ fs)
                   (setCapture 2 ("." ++ fs) noCaptures))));
    auto.
Qed.

Lemma matchHere_amount_dollars_fraction (ds fs post : string) :
  isDigits ds = true -> isDigits fs = true ->
  matchHere amountRe (ds ++ "." ++ fs ++ " dollars" ++ post) =
  Some (setCapture 0 ((ds ++ "." ++ fs) ++ " dollars")
         (setCapture 3 (ds ++ "." ++ fs)
            (setCapture 4 ("." ++ fs) noCaptures))).
Proof.
  intros Hds Hfs.
  pose proof (isDigits_head ds ("." ++ fs ++ " dollars" ++ post) Hds) as Hd.
  unfold matchHere, amountRe.
  rewrite rmatch_Alt, rmatch_Seq, rmatch_Lit, (digit_not_keyword _ Hd).
  cbn [orTry]. rewrite rmatch_Seq, rmatch_Grp.
  apply decimal_fraction; auto.
Qed.

(** A number after a digit-free beginning: the leftmost match reads it,
    at the number itself or at an "amount " that stands right before it. *)
Lemma exec_amount_number_first (pre R n : string) :
  noDigit pre = true -> headIs isDigit R = true ->
  (exists m, matchHere amountRe R = Some m /\
             orElse (m 1) (m 3) = Some n) ->
  (exists m, matchHere amountRe ("amount " ++ R) = Some m /\
             orElse (m 1) (m 3) = Some n) ->
  exists m, exec amountRe (pre ++ R) = Some m /\
            orElse (m 1) (m 3) = Some n.
Proof.
  intros Hpre Hd (m3 & H3 & E3) (m1 & H1 & E1).
  induction pre as [|a pre IH].
  - exists m3; split; [apply exec_here; exact H3 | exact E3].
  - destruct (noDigit_head _ _ Hpre) as [Ha Hpre'].
    destruct (stripPrefix "amount " (String a pre ++ R)) as [rest|] eqn:E.
    2:{ change (String a pre ++ R) with (String a (pre ++ R)) in *.
        rewrite exec_next; [exact (IH Hpre')|].
        apply matchHere_amount_none; [exact Ha | rewrite E; exact I]. }
    destruct (headIs isDigit rest) eqn:Hr.
    2:{ change (String a pre ++ R) with (String a (pre ++ R)) in *.
        rewrite exec_next; [exact (IH Hpre')|].
        apply matchHere_amount_none; [exact Ha | rewrite E; exact Hr]. }
    destruct (keyword_across _ _ _ _ Hpre E Hr) as (q & Hq & Hs).
    destruct q as [|x q].
    + rewrite append_empty_r in Hq. rewrite <- Hq.
      exists m1; split; [apply exec_here; exact H1 | exact E1].
    + exfalso.
      destruct R as [|d R]; [discriminate|].
      cbn [stripPrefix] in Hs; cbn [headIs] in Hd.
      destruct (Ascii.eqb x d) eqn:Ex; [|discriminate].
      apply Ascii.eqb_eq in Ex; subst d.
      assert (Hl : noDigit "amount " = true) by reflexivity.
      rewrite Hq in Hl. rewrite noDigit_app in Hl.
      apply andb_true_iff in Hl as [_ Hl].
      unfold noDigit in Hl; cbn [allChars] in Hl.
      rewrite Hd in Hl. discriminate.
Qed.

(** A transcript without a digit has no match. *)
Lemma exec_amount_no_digit (t : string) :
  noDigit t = true -> exec amountRe t = None.
Proof.
  assert (Here : forall s, noDigit s = true -> matchHere amountRe s = None).
  { intros s Hs. apply matchHere_amount_none; [apply noDigit_headIs, Hs|].
    destruct (stripPrefix "amount " s) as [rest|] eqn:E; [|exact I].
    apply stripPrefix_Some in E; subst s.
    rewrite noDigit_app in Hs; apply andb_true_iff in Hs as [_ Hs].
    apply noDigit_headIs, Hs. }
  induction t as [|a t IH]; intros Ht.
  - cbn [exec]. rewrite (Here _ Ht). reflexivity.
  - rewrite exec_next; [|apply Here, Ht].
    apply IH. apply (noDigit_head _ _ Ht).
Qed.

Lemma plusGreedy_sound_all {R : Type} (p : ascii -> bool) (s : string)
  (k : Cont R) (res : R) :
  plusGreedy p s k = Some res ->
  exists t s', k t s' = Some res /\ headIs p t = true /\
               allChars p t = true.
Proof.
  revert k; induction s as [|a s IH]; intros k; cbn [plusGreedy];
    [discriminate|].
  destruct (p a) eqn:Ha; [|discriminate].
  destruct (plusGreedy p s (fun t rest => k (String a t) rest)) eqn:E;
    cbn [orTry].
  - intros [= ->]. destruct (IH _ E) as (t & s' & Hk & _ & Hall).
    exists (String a t), s'; cbn [headIs allChars]; rewrite Ha, Hall; auto.
  - intros Hk. exists (String a ""), s; cbn [headIs allChars];
      rewrite Ha; auto.
Qed.

Lemma DecimalText_truthy (n : string) :
  DecimalText n -> truthy (Some n) = true.
Proof.
  intros (ds & Hds & [-> | (fs & _ & ->)]);
    destruct ds; try discriminate; reflexivity.
Qed.

(** What [decimal] hands to its continuation is a decimal numeral, and it
    only writes its own group. *)
Lemma decimal_sound (g : nat) (s : string) (c res : Captures) k :
  rmatch (decimal g) s c k = Some res ->
  exists n s' c',
    k n s' c' = Some res /\ DecimalText n /\
    (forall j, j <> g -> c' j = c j).
Proof.
  unfold decimal; rewrite rmatch_Seq, rmatch_PlusG; intros H.
  destruct (plusGreedy_sound_all _ _ _ _ H) as (ds & s1 & H1 & Hh & Ha).
  assert (Hds : isDigits ds = true)
    by (unfold isDigits; rewrite Hh, Ha; reflexivity).
  rewrite rmatch_Opt in H1.
  match type of H1 with orTry ?a _ = _ => destruct a eqn:E end;
    cbn [orTry] in H1.
  - injection H1 as ->.
    rewrite rmatch_Grp, rmatch_Seq, rmatch_Lit in E.
    destruct (stripPrefix "." s1) as [s2|]; [|discriminate].
    rewrite rmatch_PlusG in E.
    destruct (plusGreedy_sound_all _ _ _ _ E) as (fs & s3 & H3 & Hh' & Ha').
    exists (ds ++ "." ++ fs), s3, (setCapture g ("." ++ fs) c).
    split; [exact H3|]. split.
    + exists ds; split; [exact Hds|]. right; exists fs; split; [|reflexivity].
      unfold isDigits; rewrite Hh', Ha'; reflexivity.
    + intros j Hj; unfold setCapture.
      apply Nat.eqb_neq in Hj; rewrite Hj; reflexivity.
  - exists ds, s1, c. rewrite append_empty_r in H1.
    split; [exact H1|]. split; [|reflexivity].
    exists ds; split; [exact Hds | left; reflexivity].
Qed.

(** The amount taken from any match is a decimal numeral. *)
Lemma amount_capture_decimal (t : string) (m : Captures) :
  exec amountRe t = Some m ->
  exists n, orElse (m 1) (m 3) = Some n /\ DecimalText n.
Proof.
  assert (Here : forall s, matchHere amountRe s = Some m ->
            exists n, orElse (m 1) (m 3) = Some n /\ DecimalText n).
  { intros s H. unfold matchHere, amountRe in H.
    rewrite rmatch_Alt in H.
    match type of H with orTry ?a _ = _ => destruct a eqn:E end;
      cbn [orTry] in H.
    - injection H as ->.
      rewrite rmatch_Seq, rmatch_Lit in E.
      destruct (stripPrefix "amount " s) as [rest|]; [|discriminate].
      rewrite rmatch_Grp in E.
      destruct (decimal_sound _ _ _ _ _ E) as (n & s' & c' & Hk & Hn & _).
      injection Hk as <-. exists n; split; [|exact Hn].
      unfold orElse, setCapture; cbn [Nat.eqb].
      rewrite (DecimalText_truthy _ Hn); reflexivity.
    - rewrite rmatch_Seq, rmatch_Grp in H.
      destruct (decimal_sound _ _ _ _ _ H) as (n & s' & c' & Hk & Hn & Hc).
      rewrite rmatch_Lit in Hk.
      destruct (stripPrefix " dollars" s') as [rest|]; [|discriminate].
      injection Hk as <-. exists n; split; [|exact Hn].
      unfold orElse, setCapture; cbn [Nat.eqb].
      rewrite (Hc 1) by discriminate. reflexivity. }
  induction t as [|a t IH]; cbn [exec];
    destruct (matchHere amountRe _) eqn:E; cbn [orTry];
    try discriminate; try exact IH;
    intros [= ->]; apply (Here _ E).
Qed.

(* ================================================================= *)
(** ** The description pattern on a transcript *)

Lemma startsWith_false_strip (lit s : string) :
  startsWith s lit = false -> stripPrefix lit s = None.
Proof.
  revert s; induction lit as [|a lit IH]; intros s; cbn [startsWith];
    [discriminate|].
  destruct s as [|b s]; cbn [stripPrefix]; [reflexivity|].
  destruct (Ascii.eqb a b); cbn [andb]; [apply IH | reflexivity].
Qed.

Lemma startsWith_true_strip (lit s : string) :
  startsWith s lit = true -> exists rest, stripPrefix lit s = Some rest.
Proof.
  revert s; induction lit as [|a lit IH]; intros s; cbn [startsWith].
  - exists s; reflexivity.
  - destruct s as [|b s]; [discriminate|]. cbn [stripPrefix].
    destruct (Ascii.eqb a b); cbn [andb]; [apply IH | discriminate].
Qed.

(** Text added behind a long enough string does not matter. *)
Lemma startsWith_app_long (lit s Y : string) :
  length lit <= length s -> startsWith (s ++ Y) lit = startsWith s lit.
Proof.
  revert s; induction lit as [|a lit IH]; intros s Hlen; [reflexivity|].
  destruct s as [|b s]; [simpl in Hlen; lia|].
  change (String b s ++ Y) with (String b (s ++ Y)).
  cbn [startsWith]. rewrite IH; [reflexivity | simpl in Hlen; lia].
Qed.

Lemma includes_cons_false (a : ascii) (s lit : string) :
  includes (String a s) lit = false ->
  startsWith (String a s) lit = false /\ includes s lit = false.
Proof. cbn [includes]; intros H; apply orb_false_iff in H; exact H. Qed.

Lemma matchHere_description_none (s : string) :
  stripPrefix "description " s = None -> matchHere descriptionRe s = None.
Proof.
  intros H. unfold matchHere, descriptionRe.
  rewrite rmatch_Seq, rmatch_Lit, H. reflexivity.
Qed.

(** Without "description " in the transcript the pattern has no match. *)
Lemma exec_description_absent (t : string) :
  includes t "description " = false -> exec descriptionRe t = None.
Proof.
  induction t as [|a t IH]; intros H.
  - reflexivity.
  - destruct (includes_cons_false _ _ _ H) as [H1 H2].
    rewrite exec_next; [exact (IH H2)|].
    apply matchHere_description_none, startsWith_false_strip, H1.
Qed.

(** No match starts before the first "description ". *)
Lemma exec_description_skip (pre X : string) :
  includes (pre ++ "description") "description " = false ->
  exec descriptionRe (pre ++ "description " ++ X) =
  exec descriptionRe ("description " ++ X).
Proof.
  induction pre as [|a pre IH]; intros H; [reflexivity|].
  change (String a pre ++ "description")
    with (String a (pre ++ "description")) in H.
  destruct (includes_cons_false _ _ _ H) as [H1 H2].
  change (String a pre ++ "description " ++ X)
    with (String a (pre ++ "description " ++ X)).
  rewrite exec_next; [exact (IH H2)|].
  apply matchHere_description_none, startsWith_false_strip.
  change (String a (pre ++ "description " ++ X))
    with (String a pre ++ "description" ++ " " ++ X).
  rewrite <- append_assoc.
  rewrite startsWith_app_long; [exact H1|].
  change (String a pre ++ "description")
    with (String a (pre ++ "description")).
  cbn [length]. rewrite length_append. simpl. lia.
Qed.

Lemma rmatch_PlusL p s c k :
  rmatch (PlusL p) s c k = plusLazy p s (fun t rest => k t rest c).
Proof. reflexivity. Qed.

(** The lazy loop stops at the first place where the rest can succeed. *)
Lemma plusLazy_first {R : Type} (p : ascii -> bool) (w rest : string)
  (k : Cont R) (r : R) :
  w <> "" -> allChars p w = true ->
  (forall t s', descriptionEnds s' = false -> k t s' = None) ->
  noEarlierEnd w rest = true ->
  k w rest = Some r ->
  plusLazy p (w ++ rest) k = Some r.
Proof.
  revert k; induction w as [|a w IH]; intros k Hne Hall Hk Hno Hr;
    [contradiction|].
  cbn [allChars] in Hall; apply andb_true_iff in Hall as [Ha Hall].
  change (String a w ++ rest) with (String a (w ++ rest)).
  cbn [plusLazy]; rewrite Ha.
  destruct w as [|b w].
  - change ("" ++ rest) with rest. rewrite Hr; reflexivity.
  - cbn [noEarlierEnd] in Hno. apply andb_true_iff in Hno as [He Hno].
    apply negb_true_iff in He.
    rewrite (Hk _ _ He); cbn [orTry].
    apply IH; auto; discriminate.
Qed.

Lemma descriptionEnd_none (s : string) (c : Captures) k :
  descriptionEnds s = false -> rmatch descriptionEnd s c k = None.
Proof.
  unfold descriptionEnds, descriptionEnd.
  destruct s as [|a rest]; [discriminate|].
  intros H. cbn [rmatch orTry].
  destruct (isSpace a); [|reflexivity].
  cbn [andb] in H.
  repeat match type of H with
         | (_ || _) = false => apply orb_false_iff in H as [H ?]
         end.
  repeat match goal with
         | E : startsWith rest _ = false |- _ =>
             rewrite (startsWith_false_strip _ _ E); clear E
         end.
  reflexivity.
Qed.

Lemma orTry_some_left {R : Type} (a : option R) b :
  a <> None -> orTry a b <> None.
Proof. destruct a; [discriminate | contradiction]. Qed.

Lemma descriptionEnd_some (s : string) (c : Captures) k :
  descriptionEnds s = true ->
  (forall t s' c', k t s' c' <> None) ->
  rmatch descriptionEnd s c k <> None.
Proof.
  unfold descriptionEnds, descriptionEnd.
  intros H Hk. destruct s as [|a rest]; cbn [rmatch].
  - apply orTry_some_left, Hk.
  - cbn [orTry].
    apply andb_true_iff in H as [Ha H]. rewrite Ha.
    destruct (startsWith rest "amount") eqn:E1.
    { destruct (startsWith_true_strip _ _ E1) as (r & ->).
      apply orTry_some_left, Hk. }
    rewrite (startsWith_false_strip _ _ E1); cbn [orTry].
    destruct (startsWith rest "type") eqn:E2.
    { destruct (startsWith_true_strip _ _ E2) as (r & ->).
      apply orTry_some_left, Hk. }
    rewrite (startsWith_false_strip _ _ E2); cbn [orTry].
    destruct (startsWith rest "account") eqn:E3.
    { destruct (startsWith_true_strip _ _ E3) as (r & ->).
      apply orTry_some_left, Hk. }
    rewrite (startsWith_false_strip _ _ E3); cbn [orTry].
    destruct (startsWith rest "category") eqn:E4.
    { destruct (startsWith_true_strip _ _ E4) as (r & ->).
      apply orTry_some_left, Hk. }
    rewrite (startsWith_false_strip _ _ E4); cbn [orTry].
    cbn [orb] in H.
    destruct (startsWith_true_strip _ _ H) as (r & ->).
    apply Hk.
Qed.

(** "description <w>" at the start of the input captures exactly [w] when
    [w] is the shortest text after which the pattern can stop. *)
Lemma matchHere_description (w rest : string) :
  w <> "" -> allChars isDot w = true ->
  noEarlierEnd w rest = true -> descriptionEnds rest = true ->
  exists m, matchHere descriptionRe ("description " ++ w ++ rest) = Some m /\
            m 1 = Some w.
Proof.
  intros Hne Hall Hno Hend.
  unfold matchHere, descriptionRe. fold descriptionEnd.
  rewrite rmatch_Seq, rmatch_Lit_app, rmatch_Seq, rmatch_Grp, rmatch_PlusL.
  match goal with
  | |- exists m, plusLazy _ _ ?K = _ /\ _ => set (k := K)
  end.
  assert (Hr : exists r, k w rest = Some r /\ r 1 = Some w).
  { unfold k.
    match goal with
    | |- exists r, ?call = Some r /\ _ => destruct call as [r|] eqn:E
    end.
    - exists r; split; [reflexivity|].
      destruct (rmatch_sound _ _ _ _ _ E) as (t & s' & c' & Hk & _ & _ & M).
      injection Hk as <-.
      unfold setCapture at 1; cbn [Nat.eqb].
      rewrite (M 1) by reflexivity. reflexivity.
    - exfalso. revert E. apply descriptionEnd_some; [exact Hend|].
      intros; discriminate. }
  destruct Hr as (r & Hr & Hr1).
  exists r; split; [|exact Hr1].
  apply plusLazy_first; auto.
  intros t s' Hs'. unfold k. apply descriptionEnd_none, Hs'.
Qed.

(** What [trim] returns neither begins nor ends with white space. *)
Lemma trimStart_head (s : string) : headIs isSpace (trimStart s) = false.
Proof.
  induction s as [|a s IH]; cbn [trimStart]; [reflexivity|].
  destruct (isSpace a) eqn:E; [exact IH | cbn [headIs]; exact E].
Qed.

Lemma trimEnd_head (s : string) :
  headIs isSpace s = false -> headIs isSpace (trimEnd s) = false.
Proof.
  destruct s as [|a s]; [reflexivity|]. cbn [headIs trimEnd]; intros Ha.
  destruct (trimEnd s); [rewrite Ha|]; cbn [headIs]; exact Ha.
Qed.

Lemma trimEnd_last (s : string) : lastIs isSpace (trimEnd s) = false.
Proof.
  induction s as [|a s IH]; cbn [trimEnd]; [reflexivity|].
  destruct (trimEnd s) as [|b u] eqn:E.
  - destruct (isSpace a) eqn:Ea; [reflexivity | cbn [lastIs]; exact Ea].
  - cbn [lastIs]. cbn [lastIs] in IH. exact IH.
Qed.

Lemma trim_clean (s : string) :
  headIs isSpace (trim s) = false /\ lastIs isSpace (trim s) = false.
Proof.
  unfold trim; split; [apply trimEnd_head, trimStart_head | apply trimEnd_last].
Qed.

Section VoiceFacts.

Context {Number Date DateSource : Type}.
Variable Number_toString : Number -> string.
Variable Date_from : DateSource -> Date.
Variable Date_previousDay : Date -> Date.

Implicit Types (f : Form Date) (t : string) (now : Date).
Implicit Types (cats : list Category) (accs : list (Account Number)).

(* ================================================================= *)
(** ** What each block of processVoiceCommand does to the values *)

Ltac form_cases f :=
  destruct f as [[? ? ? ? ? ? ? ?] ? ?];
  repeat match goal with
         | |- context [if ?b then _ else _] => destruct b
         | |- context [match ?b with Some _ => _ | None => _ end] => destruct b
         end;
  reflexivity.

Lemma typeCommands_values t f :
  values (typeCommands t f) =
  let d := values f in
  mkDraft (if includes t "expense" || includes t "spending" then EXPENSE
           else if includes t "income" || includes t "earning" then INCOME
           else type d)
          (amount d) (description d) (accountId d) (category d) (date d)
          (isRecurring d) (recurringInterval d).
Proof. unfold typeCommands; form_cases f. Qed.

Lemma amountCommands_values t f :
  values (amountCommands t f) =
  let d := values f in
  mkDraft (type d)
          (match exec amountRe t with
           | Some m => orElse (m 1) (m 3)
           | None => amount d
           end)
          (description d) (accountId d) (category d) (date d)
          (isRecurring d) (recurringInterval d).
Proof. unfold amountCommands; form_cases f. Qed.

Lemma dateCommands_values now t f :
  values (dateCommands Date_previousDay now t f) =
  let d := values f in
  mkDraft (type d) (amount d) (description d) (accountId d) (category d)
          (if includes t "today" then now
           else if includes t "yesterday" then Date_previousDay now
           else date d)
          (isRecurring d) (recurringInterval d).
Proof. unfold dateCommands; form_cases f. Qed.

Lemma descriptionCommands_values t f :
  values (descriptionCommands t f) =
  let d := values f in
  mkDraft (type d) (amount d)
          (match exec descriptionRe t with
           | Some m => option_map trim (m 1)
           | None => description d
           end)
          (accountId d) (category d) (date d)
          (isRecurring d) (recurringInterval d).
Proof. unfold descriptionCommands; form_cases f. Qed.

(** The category loop is one update for the first category named. *)
Lemma categoryCommands_find cats t f :
  categoryCommands cats t f =
  match find (namesCategory t) cats with
  | Some c => toast ("Set category to " ++ cat_name c)
                    (setCategory (Some (cat_id c)) f)
  | None => f
  end.
Proof.
  induction cats as [|c cats IH]; cbn [categoryCommands find];
    [reflexivity|].
  unfold namesCategory at 1.
  destruct (includes t _); [reflexivity | exact IH].
Qed.

Lemma accountCommands_find accs t f :
  accountCommands accs t f =
  match find (namesAccount t) accs with
  | Some a => toast ("Set account to " ++ acc_name a)
                    (setAccountId (Some (acc_id a)) f)
  | None => f
  end.
Proof.
  induction accs as [|a accs IH]; cbn [accountCommands find];
    [reflexivity|].
  unfold namesAccount at 1.
  destruct (includes t _); [reflexivity | exact IH].
Qed.

Lemma categoryCommands_values cats t f :
  values (categoryCommands cats t f) =
  let d := values f in
  mkDraft (type d) (amount d) (description d) (accountId d)
          (match find (namesCategory t) cats with
           | Some c => Some (cat_id c)
           | None => category d
           end)
          (date d) (isRecurring d) (recurringInterval d).
Proof. rewrite categoryCommands_find; form_cases f. Qed.

Lemma accountCommands_values accs t f :
  values (accountCommands accs t f) =
  let d := values f in
  mkDraft (type d) (amount d) (description d)
          (match find (namesAccount t) accs with
           | Some a => Some (acc_id a)
           | None => accountId d
           end)
          (category d) (date d) (isRecurring d) (recurringInterval d).
Proof. rewrite accountCommands_find; form_cases f. Qed.

Lemma recurringCommands_values t f :
  values (recurringCommands t f) =
  let d := values f in
  mkDraft (type d) (amount d) (description d) (accountId d) (category d)
          (date d)
          (if enablesRecurring t then true
           else if disablesRecurring t then false
           else isRecurring d)
          (recurringInterval d).
Proof.
  unfold recurringCommands, disablesRecurring, enablesRecurring.
  destruct (includes t "recurring yes" || includes t "set recurring");
    simpl; form_cases f.
Qed.

Lemma intervalCommands_values t f :
  values (intervalCommands t f) =
  let d := values f in
  mkDraft (type d) (amount d) (description d) (accountId d) (category d)
          (date d) (isRecurring d)
          (if includes t "daily" then Some DAILY
           else if includes t "weekly" then Some WEEKLY
           else if includes t "monthly" then Some MONTHLY
           else if includes t "yearly" then Some YEARLY
           else recurringInterval d).
Proof. unfold intervalCommands; form_cases f. Qed.

Lemma submitCommands_values t f :
  values (submitCommands t f) = values f.
Proof. unfold submitCommands; form_cases f. Qed.

(** The values after one voice command, field by field. *)
Lemma processVoiceCommand_values cats accs
  now t f :
  values (processVoiceCommand Date_previousDay cats accs now t f) =
  let d := values f in
  mkDraft (if includes t "expense" || includes t "spending" then EXPENSE
           else if includes t "income" || includes t "earning" then INCOME
           else type d)
          (match exec amountRe t with
           | Some m => orElse (m 1) (m 3)
           | None => amount d
           end)
          (match exec descriptionRe t with
           | Some m => option_map trim (m 1)
           | None => description d
           end)
          (match find (namesAccount t) accs with
           | Some a => Some (acc_id a)
           | None => accountId d
           end)
          (match find (namesCategory t) cats with
           | Some c => Some (cat_id c)
           | None => category d
           end)
          (if includes t "today" then now
           else if includes t "yesterday" then Date_previousDay now
           else date d)
          (if enablesRecurring t then true
           else if disablesRecurring t then false
           else isRecurring d)
          (if includes t "daily" then Some DAILY
           else if includes t "weekly" then Some WEEKLY
           else if includes t "monthly" then Some MONTHLY
           else if includes t "yearly" then Some YEARLY
           else recurringInterval d).
Proof.
  unfold processVoiceCommand, andThen.
  rewrite submitCommands_values, intervalCommands_values; cbv zeta.
  rewrite recurringCommands_values; cbv zeta; cbn [type amount description
    accountId category date isRecurring recurringInterval].
  rewrite accountCommands_values; cbv zeta; cbn [type amount description
    accountId category date isRecurring recurringInterval].
  rewrite categoryCommands_values; cbv zeta; cbn [type amount description
    accountId category date isRecurring recurringInterval].
  rewrite descriptionCommands_values; cbv zeta; cbn [type amount description
    accountId category date isRecurring recurringInterval].
  rewrite dateCommands_values; cbv zeta; cbn [type amount description
    accountId category date isRecurring recurringInterval].
  rewrite amountCommands_values; cbv zeta; cbn [type amount description
    accountId category date isRecurring recurringInterval].
  rewrite typeCommands_values; cbv zeta; cbn [type amount description
    accountId category date isRecurring recurringInterval].
  reflexivity.
Qed.

(* ================================================================= *)
(** ** Properties of the component *)

Local Abbreviation voice := (processVoiceCommand Date_previousDay).

(** C1 (as the code has it).  For every transcript that contains "expense"
    or "spending" the draft's type becomes EXPENSE, whether or not "income"
    or "earning" occur in it as well: the income check is the else-branch
    of the expense check, so the first rule wins. *)
Theorem voice_type_expense_first cats accs now t f :
  includes t "expense" || includes t "spending" = true ->
  type (values (voice cats accs now t f)) = EXPENSE.
Proof.
  intros H. rewrite processVoiceCommand_values; cbv zeta; cbn [type].
  rewrite H; reflexivity.
Qed.

(** The income rule only decides when the expense rule does not fire. *)
Lemma voice_type_income cats accs now t f :
  includes t "expense" || includes t "spending" = false ->
  includes t "income" || includes t "earning" = true ->
  type (values (voice cats accs now t f)) = INCOME.
Proof.
  intros H1 H2. rewrite processVoiceCommand_values; cbv zeta; cbn [type].
  rewrite H1, H2; reflexivity.
Qed.

(** C2 (as the code has it).  The create-mode defaults and the edit-mode
    values taken from data that satisfies the invariant satisfy it, and it
    is kept by every voice command whose transcript switches recurring on,
    or neither names an interval nor switches recurring off: every draft
    reached through such commands has a recurringInterval only when
    isRecurring is true. *)
Theorem reachable_interval_only_when_recurring f :
  Reachable Number_toString Date_from Date_previousDay keepsInterval f ->
  intervalOnlyWhenRecurring (values f).
Proof.
  induction 1 as [accs now | accs i now Hi | cats accs now t f Hf IH Ht].
  - intros H; exfalso; apply H; reflexivity.
  - exact Hi.
  - unfold intervalOnlyWhenRecurring in *.
    rewrite processVoiceCommand_values; cbv zeta;
      cbn [isRecurring recurringInterval].
    destruct Ht as [He | [Hn Hd]].
    + rewrite He; reflexivity.
    + unfold namesInterval in Hn.
      apply orb_false_iff in Hn as [Hn Hy].
      apply orb_false_iff in Hn as [Hn Hm].
      apply orb_false_iff in Hn as [Hdy Hw].
      rewrite Hdy, Hw, Hm, Hy, Hd.
      destruct (enablesRecurring t); [reflexivity | exact IH].
Qed.

(** The receipt scan does not touch the two recurring fields either. *)
Lemma scan_keeps_interval_invariant sd f :
  intervalOnlyWhenRecurring (values f) ->
  intervalOnlyWhenRecurring
    (values (handleScanComplete Number_toString Date_from sd f)).
Proof.
  destruct sd as [d|]; [|exact (fun H => H)].
  unfold handleScanComplete, intervalOnlyWhenRecurring, andThen.
  destruct f as [[? ? ? ? ? ? ? ?] ? ?].
  destruct (truthy (scan_description d)), (truthy (scan_category d));
    exact (fun H => H).
Qed.

(** C3 (as the code has it).  When the transcript reads [pre], then
    "amount 50" or "50 dollars", then [post], where [pre] holds no digit
    and, for "amount 50", [post] does not go on with a digit or with a dot
    and a digit, the draft's amount becomes "50". *)
Theorem voice_amount_fifty cats accs now pre post t f :
  noDigit pre = true ->
  (t = pre ++ "amount 50" ++ post /\ numberGoesOn post = false) \/
  t = pre ++ "50 dollars" ++ post ->
  amount (values (voice cats accs now t f)) = Some "50".
Proof.
  intros Hpre Ht.
  rewrite processVoiceCommand_values; cbv zeta; cbn [amount].
  destruct Ht as [[-> Hpost] | ->].
  - change (pre ++ "amount 50" ++ post)
      with (pre ++ "amount " ++ "50" ++ post).
    rewrite exec_amount_keyword;
      [reflexivity | exact Hpre | discriminate | reflexivity | exact Hpost].
  - change (pre ++ "50 dollars" ++ post)
      with (pre ++ "50" ++ " dollars" ++ post).
    destruct (exec_amount_dollars pre "50" post Hpre) as (m & -> & Hm);
      [discriminate | reflexivity | exact Hm].
Qed.

(** C4.  For every transcript that contains both "today" and "yesterday"
    the draft's date becomes the current date. *)
Theorem voice_today_before_yesterday cats accs now t f :
  includes t "today" = true ->
  includes t "yesterday" = true ->
  date (values (voice cats accs now t f)) = now.
Proof.
  intros H _. rewrite processVoiceCommand_values; cbv zeta; cbn [date].
  rewrite H; reflexivity.
Qed.

(** "yesterday" alone sets the day before the current date. *)
Lemma voice_yesterday cats accs now t f :
  includes t "today" = false ->
  includes t "yesterday" = true ->
  date (values (voice cats accs now t f)) = Date_previousDay now.
Proof.
  intros H1 H2. rewrite processVoiceCommand_values; cbv zeta; cbn [date].
  rewrite H1, H2; reflexivity.
Qed.

(** C5.  The transcript "description lunch with clients amount 50" sets the
    description to exactly "lunch with clients"; so does the same phrase at
    the end of the transcript and before each of the other keywords (type,
    account, category, date), and the capture is trimmed. *)
Theorem voice_description_lunch cats accs now f :
  let described t := description (values (voice cats accs now t f)) in
  described "description lunch with clients amount 50"
    = Some "lunch with clients" /\
  described "description lunch with clients" = Some "lunch with clients" /\
  described "description lunch with clients type income"
    = Some "lunch with clients" /\
  described "description lunch with clients account savings"
    = Some "lunch with clients" /\
  described "description lunch with clients category food"
    = Some "lunch with clients" /\
  described "description lunch with clients date today"
    = Some "lunch with clients" /\
  described "description  lunch with clients  amount 50"
    = Some "lunch with clients".
Proof.
  cbv zeta; repeat split;
    rewrite processVoiceCommand_values; cbv zeta; cbn [description];
    vm_compute; reflexivity.
Qed.

(** C6.  The category loop as a whole is one update, to the id of the
    first category of the list whose lower-cased name after "category "
    occurs in the transcript, and no update when there is none; the account
    loop is the same with "account " and the account names; after the voice
    command the category and the account are each decided by their own list
    alone; [onresult] applies this to the lower-cased transcript. *)
Theorem voice_category_account_first_match cats accs now t f :
  categoryCommands cats t f =
    match find (fun c => includes t ("category " ++ toLowerCase (cat_name c)))
               cats with
    | Some c => toast ("Set category to " ++ cat_name c)
                      (setCategory (Some (cat_id c)) f)
    | None => f
    end /\
  accountCommands accs t f =
    match find (fun a => includes t ("account " ++ toLowerCase (acc_name a)))
               accs with
    | Some a => toast ("Set account to " ++ acc_name a)
                      (setAccountId (Some (acc_id a)) f)
    | None => f
    end /\
  category (values (voice cats accs now t f)) =
    match find (fun c => includes t ("category " ++ toLowerCase (cat_name c)))
               cats with
    | Some c => Some (cat_id c)
    | None => category (values f)
    end /\
  accountId (values (voice cats accs now t f)) =
    match find (fun a => includes t ("account " ++ toLowerCase (acc_name a)))
               accs with
    | Some a => Some (acc_id a)
    | None => accountId (values f)
    end /\
  category (values (onresult Date_previousDay cats accs now t f)) =
    match find (fun c => includes (toLowerCase t)
                           ("category " ++ toLowerCase (cat_name c)))
               cats with
    | Some c => Some (cat_id c)
    | None => category (values f)
    end.
Proof.
  split; [apply categoryCommands_find|].
  split; [apply accountCommands_find|].
  unfold onresult.
  rewrite !processVoiceCommand_values; cbv zeta; cbn [category accountId].
  repeat split; reflexivity.
Qed.

(** C7.  The interval rule tries "daily", "weekly", "monthly", "yearly" in
    this order and the first that occurs decides; in particular a transcript
    that contains "daily" sets DAILY whatever else it contains. *)
Theorem voice_interval_order cats accs now t f :
  recurringInterval (values (voice cats accs now t f)) =
    (if includes t "daily" then Some DAILY
     else if includes t "weekly" then Some WEEKLY
     else if includes t "monthly" then Some MONTHLY
     else if includes t "yearly" then Some YEARLY
     else recurringInterval (values f)) /\
  (includes t "daily" = true ->
   recurringInterval (values (voice cats accs now t f)) = Some DAILY).
Proof.
  rewrite processVoiceCommand_values; cbv zeta; cbn [recurringInterval].
  split; [reflexivity | intros ->; reflexivity].
Qed.

Lemma find_none_when_all_false {A : Type} (p : A -> bool) (l : list A) :
  (forall a, In a l -> p a = false) -> find p l = None.
Proof.
  induction l as [|a l IH]; intros H; cbn [find]; [reflexivity|].
  rewrite (H a (or_introl eq_refl)).
  apply IH; intros b Hb; apply H; right; exact Hb.
Qed.

Lemma find_first {A : Type} (p : A -> bool) (l1 l2 : list A) (a : A) :
  (forall b, In b l1 -> p b = false) -> p a = true ->
  find p (l1 ++ a :: l2) = Some a.
Proof.
  induction l1 as [|b l1 IH]; intros H Ha; cbn [find app].
  - rewrite Ha; reflexivity.
  - rewrite (H b (or_introl eq_refl)).
    apply IH; [|exact Ha]. intros c Hc; apply H; right; exact Hc.
Qed.

(** C8.  In create mode (editMode false, no initial data) the draft starts
    with type EXPENSE, empty amount and description, the current date,
    isRecurring false, no category and no interval; its accountId is the id
    of the first account flagged default: undefined when no account is
    flagged, and the id of [a] when [a] is flagged and no account before it
    is. *)
Theorem create_mode_defaults accs now :
  let d := defaultValues Number_toString Date_from accs false None now in
  type d = EXPENSE /\
  amount d = Some "" /\
  description d = Some "" /\
  date d = now /\
  isRecurring d = false /\
  category d = None /\
  recurringInterval d = None /\
  accountId d = option_map acc_id (find acc_isDefault accs) /\
  ((forall a, In a accs -> acc_isDefault a = false) -> accountId d = None) /\
  (forall (l1 l2 : list (Account Number)) (a : Account Number),
     accs = (l1 ++ a :: l2)%list ->
     (forall b, In b l1 -> acc_isDefault b = false) ->
     acc_isDefault a = true ->
     accountId d = Some (acc_id a)).
Proof.
  cbv zeta; cbn [defaultValues type amount description date isRecurring
    category recurringInterval accountId]; unfold defaultAccountId.
  repeat split.
  - intros H; rewrite (find_none_when_all_false _ _ H); reflexivity.
  - intros l1 l2 a -> H Ha; rewrite (find_first _ _ _ _ H Ha); reflexivity.
Qed.

(** Edit mode copies the existing transaction. *)
Lemma edit_mode_defaults accs (i : InitialData Number DateSource) now :
  defaultValues Number_toString Date_from accs true (Some i) now =
  mkDraft (init_type i) (Some (Number_toString (init_amount i)))
          (init_description i) (init_accountId i) (init_category i)
          (Date_from (init_date i)) (init_isRecurring i)
          (init_recurringInterval i).
Proof. reflexivity. Qed.

(** C9.  A scan result always overwrites amount and date with its values;
    description and category are overwritten when the result carries a
    (non-empty) one and are left as they were otherwise, in particular when
    the result has none; no other field changes, and one notification is
    shown. *)
Theorem scan_overwrites_amount_and_date (d : ScannedData Number DateSource) f :
  let f' := handleScanComplete Number_toString Date_from (Some d) f in
  amount (values f') = Some (Number_toString (scan_amount d)) /\
  date (values f') = Date_from (scan_date d) /\
  description (values f') =
    (if truthy (scan_description d) then scan_description d
     else description (values f)) /\
  category (values f') =
    (if truthy (scan_category d) then scan_category d
     else category (values f)) /\
  (scan_description d = None -> description (values f') = description (values f)) /\
  (scan_category d = None -> category (values f') = category (values f)) /\
  type (values f') = type (values f) /\
  accountId (values f') = accountId (values f) /\
  isRecurring (values f') = isRecurring (values f) /\
  recurringInterval (values f') = recurringInterval (values f) /\
  toasts f' = (toasts f ++ ["Receipt scanned successfully"])%list /\
  submits f' = submits f.
Proof.
  cbv zeta; unfold handleScanComplete, andThen.
  destruct f as [[? ? ? ? ? ? ? ?] ? ?].
  destruct (scan_description d) as [[|? ?]|] eqn:Ed;
    destruct (scan_category d) as [[|? ?]|] eqn:Ec;
    cbn; repeat split; intros; try reflexivity; discriminate.
Qed.

(** A missing result changes nothing. *)
Lemma scan_nothing f :
  handleScanComplete Number_toString Date_from None f = f.
Proof. reflexivity. Qed.

Lemma existsb_false_find {A : Type} (p : A -> bool) (l : list A) :
  existsb p l = false -> find p l = None.
Proof.
  induction l as [|a l IH]; cbn [existsb find]; [reflexivity|].
  destruct (p a); [discriminate | exact IH].
Qed.

(** C10.  A transcript on which none of the nine rules fires leaves the
    form as it was: every field of the draft, the notifications, and the
    number of submissions requested. *)
Theorem voice_no_rule_no_change cats accs now t f :
  matchesSomeRule cats accs t = false ->
  voice cats accs now t f = f.
Proof.
  unfold matchesSomeRule, namesInterval; intros H.
  repeat match goal with
         | E : (_ || _) = false |- _ => apply orb_false_iff in E as [? ?]
         end.
  unfold processVoiceCommand, andThen.
  unfold typeCommands, amountCommands, dateCommands, descriptionCommands,
    recurringCommands, intervalCommands, submitCommands.
  rewrite categoryCommands_find, accountCommands_find.
  repeat match goal with
         | E : includes t ?w = false |- _ => rewrite E; clear E
         | E : existsb _ _ = false |- _ =>
             rewrite (existsb_false_find _ _ E); clear E
         end.
  destruct (exec amountRe t); [discriminate|].
  destruct (exec descriptionRe t); [discriminate|].
  reflexivity.
Qed.

(* ================================================================= *)
(** ** Further properties of the voice interpreter *)

Ltac all_fields :=
  cbv zeta; cbn [type amount description accountId category date
                 isRecurring recurringInterval].

(** Saying the same thing twice changes the values no further. *)
Theorem voice_same_transcript_twice cats accs now t f :
  values (voice cats accs now t (voice cats accs now t f)) =
  values (voice cats accs now t f).
Proof.
  rewrite (processVoiceCommand_values cats accs now t (voice cats accs now t f)).
  rewrite processVoiceCommand_values; all_fields.
  f_equal;
    repeat match goal with
           | |- context [if ?b then _ else _] => destruct b
           | |- context [match ?b with Some _ => _ | None => _ end] =>
               destruct b
           end;
    reflexivity.
Qed.

Ltac block_toasts f :=
  destruct f as [? ? ?];
  repeat match goal with
         | |- context [if ?b then _ else _] => destruct b
         | |- context [match ?b with Some _ => _ | None => _ end] => destruct b
         end;
  cbn; rewrite ?app_nil_r; auto.

Lemma typeCommands_report t f :
  toasts (typeCommands t f) = (toasts f ++ typeToasts t)%list /\
  submits (typeCommands t f) = submits f.
Proof. unfold typeCommands, typeToasts; block_toasts f. Qed.

Lemma amountCommands_report t f :
  toasts (amountCommands t f) = (toasts f ++ amountToasts t)%list /\
  submits (amountCommands t f) = submits f.
Proof.
  unfold amountCommands, amountToasts, shown.
  destruct f as [? ? ?]; destruct (exec amountRe t);
    cbn; rewrite ?app_nil_r; auto.
Qed.

Lemma dateCommands_report now t f :
  toasts (dateCommands Date_previousDay now t f)
    = (toasts f ++ dateToasts t)%list /\
  submits (dateCommands Date_previousDay now t f) = submits f.
Proof. unfold dateCommands, dateToasts; block_toasts f. Qed.

Lemma descriptionCommands_report t f :
  toasts (descriptionCommands t f) = (toasts f ++ descriptionToasts t)%list /\
  submits (descriptionCommands t f) = submits f.
Proof.
  unfold descriptionCommands, descriptionToasts, shown.
  destruct f as [? ? ?]; destruct (exec descriptionRe t);
    cbn; rewrite ?app_nil_r; auto.
Qed.

Lemma categoryCommands_report cats t f :
  toasts (categoryCommands cats t f) = (toasts f ++ categoryToasts cats t)%list /\
  submits (categoryCommands cats t f) = submits f.
Proof.
  rewrite categoryCommands_find; unfold categoryToasts.
  destruct f as [? ? ?]; destruct (find (namesCategory t) cats);
    cbn; rewrite ?app_nil_r; auto.
Qed.

Lemma accountCommands_report accs t f :
  toasts (accountCommands accs t f) = (toasts f ++ accountToasts accs t)%list /\
  submits (accountCommands accs t f) = submits f.
Proof.
  rewrite accountCommands_find; unfold accountToasts.
  destruct f as [? ? ?]; destruct (find (namesAccount t) accs);
    cbn; rewrite ?app_nil_r; auto.
Qed.

Lemma recurringCommands_report t f :
  toasts (recurringCommands t f) = (toasts f ++ recurringToasts t)%list /\
  submits (recurringCommands t f) = submits f.
Proof. unfold recurringCommands, recurringToasts; block_toasts f. Qed.

Lemma intervalCommands_report t f :
  toasts (intervalCommands t f) = (toasts f ++ intervalToasts t)%list /\
  submits (intervalCommands t f) = submits f.
Proof. unfold intervalCommands, intervalToasts; block_toasts f. Qed.

Lemma submitCommands_report t f :
  toasts (submitCommands t f) = (toasts f ++ submitToasts t)%list /\
  submits (submitCommands t f) =
    submits f + (if includes t "submit" || includes t "save transaction"
                 then 1 else 0).
Proof.
  unfold submitCommands, submitToasts.
  destruct f as [? ? n];
    destruct (includes t "submit" || includes t "save transaction");
    cbn; rewrite ?app_nil_r; split; auto; lia.
Qed.

Lemma processVoiceCommand_report cats accs now t f :
  toasts (voice cats accs now t f) = (toasts f ++ voiceToasts cats accs t)%list /\
  submits (voice cats accs now t f) =
    submits f + (if includes t "submit" || includes t "save transaction"
                 then 1 else 0).
Proof.
  unfold processVoiceCommand, andThen, voiceToasts.
  destruct (submitCommands_report t
    (intervalCommands t (recurringCommands t (accountCommands accs t
      (categoryCommands cats t (descriptionCommands t
        (dateCommands Date_previousDay now t
          (amountCommands t (typeCommands t f))))))))) as [T9 S9].
  rewrite T9, S9.
  destruct (intervalCommands_report t
    (recurringCommands t (accountCommands accs t
      (categoryCommands cats t (descriptionCommands t
        (dateCommands Date_previousDay now t
          (amountCommands t (typeCommands t f)))))))) as [T8 S8].
  rewrite T8, S8.
  destruct (recurringCommands_report t
    (accountCommands accs t
      (categoryCommands cats t (descriptionCommands t
        (dateCommands Date_previousDay now t
          (amountCommands t (typeCommands t f))))))) as [T7 S7].
  rewrite T7, S7.
  destruct (accountCommands_report accs t
    (categoryCommands cats t (descriptionCommands t
      (dateCommands Date_previousDay now t
        (amountCommands t (typeCommands t f)))))) as [T6 S6].
  rewrite T6, S6.
  destruct (categoryCommands_report cats t
    (descriptionCommands t
      (dateCommands Date_previousDay now t
        (amountCommands t (typeCommands t f))))) as [T5 S5].
  rewrite T5, S5.
  destruct (descriptionCommands_report t
    (dateCommands Date_previousDay now t
      (amountCommands t (typeCommands t f)))) as [T4 S4].
  rewrite T4, S4.
  destruct (dateCommands_report now t (amountCommands t (typeCommands t f)))
    as [T3 S3].
  rewrite T3, S3.
  destruct (amountCommands_report t (typeCommands t f)) as [T2 S2].
  rewrite T2, S2.
  destruct (typeCommands_report t f) as [T1 S1].
  rewrite T1, S1.
  rewrite <- !app_assoc. split; reflexivity.
Qed.

Ltac few_cases :=
  repeat match goal with
         | |- context [includes ?t ?w] => destruct (includes t w)
         end;
  cbn; try lia; try (split; intros; (reflexivity || discriminate)).

Lemma typeToasts_nil t :
  List.length (typeToasts t) <= 1 /\
  (typeToasts t = [] <->
   includes t "expense" || includes t "spending" ||
   includes t "income" || includes t "earning" = false).
Proof. unfold typeToasts; split; few_cases. Qed.

Lemma dateToasts_nil t :
  List.length (dateToasts t) <= 1 /\
  (dateToasts t = [] <->
   includes t "today" || includes t "yesterday" = false).
Proof. unfold dateToasts; split; few_cases. Qed.

Lemma recurringToasts_nil t :
  List.length (recurringToasts t) <= 1 /\
  (recurringToasts t = [] <->
   includes t "recurring yes" || includes t "set recurring" ||
   includes t "recurring no" || includes t "not recurring" = false).
Proof. unfold recurringToasts; split; few_cases. Qed.

Lemma intervalToasts_nil t :
  List.length (intervalToasts t) <= 1 /\
  (intervalToasts t = [] <-> namesInterval t = false).
Proof. unfold intervalToasts, namesInterval; split; few_cases. Qed.

Lemma submitToasts_nil t :
  List.length (submitToasts t) <= 1 /\
  (submitToasts t = [] <->
   includes t "submit" || includes t "save transaction" = false).
Proof. unfold submitToasts; split; few_cases. Qed.

Lemma amountToasts_nil t :
  List.length (amountToasts t) <= 1 /\
  (amountToasts t = [] <-> isMatch (exec amountRe t) = false).
Proof.
  unfold amountToasts; destruct (exec amountRe t); cbn;
    (split; [lia | split; intros; (reflexivity || discriminate)]).
Qed.

Lemma descriptionToasts_nil t :
  List.length (descriptionToasts t) <= 1 /\
  (descriptionToasts t = [] <-> isMatch (exec descriptionRe t) = false).
Proof.
  unfold descriptionToasts; destruct (exec descriptionRe t); cbn;
    (split; [lia | split; intros; (reflexivity || discriminate)]).
Qed.

Lemma find_existsb {A : Type} (p : A -> bool) (l : list A) :
  existsb p l = match find p l with Some _ => true | None => false end.
Proof.
  induction l as [|a l IH]; cbn [existsb find]; [reflexivity|].
  destruct (p a); [reflexivity | exact IH].
Qed.

Lemma categoryToasts_nil cats t :
  List.length (categoryToasts cats t) <= 1 /\
  (categoryToasts cats t = [] <-> existsb (namesCategory t) cats = false).
Proof.
  unfold categoryToasts; rewrite find_existsb.
  destruct (find (namesCategory t) cats); cbn;
    (split; [lia | split; intros; (reflexivity || discriminate)]).
Qed.

Lemma accountToasts_nil accs t :
  List.length (accountToasts accs t) <= 1 /\
  (accountToasts accs t = [] <-> existsb (namesAccount t) accs = false).
Proof.
  unfold accountToasts; rewrite find_existsb.
  destruct (find (namesAccount t) accs); cbn;
    (split; [lia | split; intros; (reflexivity || discriminate)]).
Qed.

Lemma app_nil_iff {A : Type} (l1 l2 : list A) :
  (l1 ++ l2)%list = [] <-> l1 = [] /\ l2 = [].
Proof.
  split; [apply app_eq_nil | intros [-> ->]; reflexivity].
Qed.

Lemma orb_false_both (a b : bool) : a || b = false <-> a = false /\ b = false.
Proof. apply orb_false_iff. Qed.

(** A voice command shows one notification for each block that fires, in
    the order of the blocks, whatever the draft holds: none when no rule
    fires, nine at most. *)
Theorem voice_notifications cats accs now now' t f g :
  exists news,
    toasts (voice cats accs now t f) = (toasts f ++ news)%list /\
    toasts (voice cats accs now' t g) = (toasts g ++ news)%list /\
    List.length news <= 9 /\
    (news = [] <-> matchesSomeRule cats accs t = false).
Proof.
  exists (voiceToasts cats accs t).
  split; [apply processVoiceCommand_report|].
  split; [apply processVoiceCommand_report|].
  destruct (typeToasts_nil t) as [L1 N1].
  destruct (amountToasts_nil t) as [L2 N2].
  destruct (dateToasts_nil t) as [L3 N3].
  destruct (descriptionToasts_nil t) as [L4 N4].
  destruct (categoryToasts_nil cats t) as [L5 N5].
  destruct (accountToasts_nil accs t) as [L6 N6].
  destruct (recurringToasts_nil t) as [L7 N7].
  destruct (intervalToasts_nil t) as [L8 N8].
  destruct (submitToasts_nil t) as [L9 N9].
  unfold voiceToasts; split.
  - rewrite !length_app. lia.
  - unfold matchesSomeRule.
    rewrite !app_nil_iff, N1, N2, N3, N4, N5, N6, N7, N8, N9.
    rewrite !orb_false_both. tauto.
Qed.

(** A voice command asks for submission once when the transcript contains
    "submit" or "save transaction", and never otherwise. *)
Theorem voice_submit_once cats accs now t f :
  submits (voice cats accs now t f) =
  submits f + (if includes t "submit" || includes t "save transaction"
               then 1 else 0).
Proof. apply processVoiceCommand_report. Qed.

(** Any decimal numeral is read like "50": after a digit-free beginning,
    "amount <n>" (when the number does not go on behind it) and
    "<n> dollars" set the amount to [n], whatever else follows. *)
Theorem voice_amount_number cats accs now pre n post t f :
  DecimalText n ->
  noDigit pre = true ->
  (t = pre ++ "amount " ++ n ++ post /\ numberGoesOn post = false) \/
  t = pre ++ n ++ " dollars" ++ post ->
  amount (values (voice cats accs now t f)) = Some n.
Proof.
  intros (ds & Hds & Hn) Hpre Ht.
  destruct (isDigits_parts _ Hds) as [Hne Hall].
  rewrite processVoiceCommand_values; all_fields.
  destruct Hn as [-> | (fs & Hfs & ->)]; destruct Ht as [[-> Hpost] | ->].
  - rewrite exec_amount_keyword; auto.
    unfold orElse, setCapture; cbn [Nat.eqb].
    rewrite truthy_nonempty; auto.
  - destruct (exec_amount_dollars pre ds post Hpre Hne Hall) as (m & -> & Hm).
    exact Hm.
  - rewrite exec_amount_skip by exact Hpre.
    rewrite !append_assoc.
    erewrite exec_here;
      [|apply matchHere_amount_keyword_fraction; auto;
        apply orb_false_iff in Hpost as [H _]; exact H].
    unfold orElse, setCapture; cbn [Nat.eqb].
    rewrite truthy_nonempty; [reflexivity|].
    destruct ds; [contradiction | discriminate].
  - rewrite !append_assoc.
    destruct (exec_amount_number_first pre
                (ds ++ "." ++ fs ++ " dollars" ++ post)
                (ds ++ "." ++ fs) Hpre) as (m & -> & Hm).
    + apply isDigits_head, Hds.
    + eexists; split; [apply matchHere_amount_dollars_fraction; auto|].
      reflexivity.
    + eexists; split.
      * apply (matchHere_amount_keyword_fraction ds fs (" dollars" ++ post));
          auto.
      * unfold orElse, setCapture; cbn [Nat.eqb].
        rewrite truthy_nonempty; [reflexivity|].
        destruct ds; [contradiction | discriminate].
    + exact Hm.
Qed.

(** A transcript without a digit leaves the amount as it was. *)
Theorem voice_amount_needs_digit cats accs now t f :
  noDigit t = true ->
  amount (values (voice cats accs now t f)) = amount (values f).
Proof.
  intros H. rewrite processVoiceCommand_values; all_fields.
  rewrite (exec_amount_no_digit _ H). reflexivity.
Qed.

(** When a voice command changes the amount, the new amount is a decimal
    numeral: digits, or digits, a dot and digits. *)
Theorem voice_amount_is_decimal cats accs now t f :
  amount (values (voice cats accs now t f)) <> amount (values f) ->
  exists n, amount (values (voice cats accs now t f)) = Some n /\
            DecimalText n.
Proof.
  rewrite processVoiceCommand_values; all_fields.
  destruct (exec amountRe t) as [m|] eqn:E; [|intros H; contradiction].
  intros _. apply (amount_capture_decimal _ _ E).
Qed.

(** The description rule in general: after the first "description " the
    shortest non-empty text [w] behind which the input ends, or white space
    and a keyword follow, is captured, and the description becomes [w]
    trimmed. *)
Theorem voice_description_text cats accs now pre w rest t f :
  includes (pre ++ "description") "description " = false ->
  w <> "" -> allChars isDot w = true ->
  noEarlierEnd w rest = true -> descriptionEnds rest = true ->
  t = pre ++ "description " ++ w ++ rest ->
  description (values (voice cats accs now t f)) = Some (trim w).
Proof.
  intros Hpre Hne Hall Hno Hend ->.
  rewrite processVoiceCommand_values; all_fields.
  rewrite exec_description_skip by exact Hpre.
  destruct (matchHere_description w rest Hne Hall Hno Hend) as (m & Hm & Hw).
  rewrite (exec_here _ _ _ Hm), Hw. reflexivity.
Qed.

(** Without "description " (the word and a space) in the transcript the
    description stays as it was. *)
Theorem voice_description_needs_keyword cats accs now t f :
  includes t "description " = false ->
  description (values (voice cats accs now t f)) = description (values f).
Proof.
  intros H. rewrite processVoiceCommand_values; all_fields.
  rewrite (exec_description_absent _ H). reflexivity.
Qed.

(** When a voice command changes the description, the new description is
    a text that neither begins nor ends with white space. *)
Theorem voice_description_is_trimmed cats accs now t f :
  description (values (voice cats accs now t f)) <> description (values f) ->
  exists d, description (values (voice cats accs now t f)) = Some d /\
            headIs isSpace d = false /\ lastIs isSpace d = false.
Proof.
  rewrite processVoiceCommand_values; all_fields.
  destruct (exec descriptionRe t) as [m|] eqn:E; [|intros H; contradiction].
  intros _. pose proof (description_capture_defined _ _ E) as T.
  destruct (m 1) as [d|]; [|discriminate].
  exists (trim d); split; [reflexivity | apply trim_clean].
Qed.

(** No voice command makes a field undefined that had a value. *)
Theorem voice_keeps_fields_defined cats accs now t f :
  (amount (values f) <> None ->
   amount (values (voice cats accs now t f)) <> None) /\
  (description (values f) <> None ->
   description (values (voice cats accs now t f)) <> None) /\
  (accountId (values f) <> None ->
   accountId (values (voice cats accs now t f)) <> None) /\
  (category (values f) <> None ->
   category (values (voice cats accs now t f)) <> None) /\
  (recurringInterval (values f) <> None ->
   recurringInterval (values (voice cats accs now t f)) <> None).
Proof.
  rewrite processVoiceCommand_values; all_fields.
  repeat split; intros H.
  - destruct (exec amountRe t) as [m|] eqn:E; [|exact H].
    pose proof (amount_capture_defined _ _ E) as T.
    destruct (orElse (m 1) (m 3)); [discriminate | discriminate T].
  - destruct (exec descriptionRe t) as [m|] eqn:E; [|exact H].
    pose proof (description_capture_defined _ _ E) as T.
    destruct (m 1); [discriminate | discriminate T].
  - destruct (find (namesAccount t) accs); [discriminate | exact H].
  - destruct (find (namesCategory t) cats); [discriminate | exact H].
  - destruct (includes t "daily"); [discriminate|].
    destruct (includes t "weekly"); [discriminate|].
    destruct (includes t "monthly"); [discriminate|].
    destruct (includes t "yearly"); [discriminate | exact H].
Qed.

(** The recurring flag: "recurring yes" or "set recurring" switch it on
    even when "recurring no" or "not recurring" occur as well; those two
    switch it off only when neither of the first two occurs; when none of
    the four occurs the flag stays as it was. *)
Theorem voice_recurring_flag cats accs now t f :
  (includes t "recurring yes" || includes t "set recurring" = true ->
   isRecurring (values (voice cats accs now t f)) = true) /\
  (includes t "recurring yes" || includes t "set recurring" = false ->
   includes t "recurring no" || includes t "not recurring" = true ->
   isRecurring (values (voice cats accs now t f)) = false) /\
  (includes t "recurring yes" || includes t "set recurring" = false ->
   includes t "recurring no" || includes t "not recurring" = false ->
   isRecurring (values (voice cats accs now t f)) = isRecurring (values f)).
Proof.
  rewrite processVoiceCommand_values; all_fields.
  unfold disablesRecurring, enablesRecurring.
  repeat split; intros; repeat match goal with
                               | E : _ = _ |- _ => rewrite E; clear E
                               end; reflexivity.
Qed.

Lemma lowerChar_idempotent (a : ascii) :
  lowerChar (lowerChar a) = lowerChar a.
Proof.
  destruct a as [[] [] [] [] [] [] [] []]; vm_compute; reflexivity.
Qed.

Lemma toLowerCase_idempotent (s : string) :
  toLowerCase (toLowerCase s) = toLowerCase s.
Proof.
  induction s as [|a s IH]; cbn [toLowerCase]; [reflexivity|].
  rewrite lowerChar_idempotent, IH; reflexivity.
Qed.

Lemma find_category_by_keys cats cats' t :
  categoryKeys cats = categoryKeys cats' ->
  option_map cat_id (find (namesCategory t) cats) =
  option_map cat_id (find (namesCategory t) cats').
Proof.
  revert cats'; induction cats as [|c cats IH]; intros [|c' cats'];
    cbn [categoryKeys map]; try discriminate; [reflexivity|].
  intros [= Hid Hname Hrest]. cbn [find]. unfold namesCategory at 1 3.
  rewrite Hname.
  destruct (includes t _); cbn [option_map]; [rewrite Hid; reflexivity|].
  apply IH, Hrest.
Qed.

Lemma find_account_by_keys accs accs' t :
  accountKeys accs = accountKeys accs' ->
  option_map acc_id (find (namesAccount t) accs) =
  option_map acc_id (find (namesAccount t) accs').
Proof.
  revert accs'; induction accs as [|a accs IH]; intros [|a' accs'];
    cbn [accountKeys map]; try discriminate; [reflexivity|].
  intros [= Hid Hname Hrest]. cbn [find]. unfold namesAccount at 1 3.
  rewrite Hname.
  destruct (includes t _); cbn [option_map]; [rewrite Hid; reflexivity|].
  apply IH, Hrest.
Qed.

(** Matching is case-insensitive and reads ids and names only: lists that
    agree on the ids and the lower-cased names of their entries, in order,
    and a transcript already in lower case lead to the same values. *)
Theorem onresult_reads_ids_and_lowercase_names
  cats cats' accs accs' now heard f :
  categoryKeys cats = categoryKeys cats' ->
  accountKeys accs = accountKeys accs' ->
  values (onresult Date_previousDay cats accs now heard f) =
  values (onresult Date_previousDay cats' accs' now (toLowerCase heard) f).
Proof.
  intros Hc Ha. unfold onresult.
  rewrite toLowerCase_idempotent.
  rewrite !processVoiceCommand_values; all_fields.
  pose proof (find_category_by_keys cats cats' (toLowerCase heard) Hc) as Ec.
  pose proof (find_account_by_keys accs accs' (toLowerCase heard) Ha) as Ea.
  f_equal.
  - destruct (find (namesAccount _) accs), (find (namesAccount _) accs');
      cbn [option_map] in Ea; congruence.
  - destruct (find (namesCategory _) cats), (find (namesCategory _) cats');
      cbn [option_map] in Ec; congruence.
Qed.

Lemma NoDup_map_inj {A B : Type} (g : A -> B) (l : list A) (x y : A) :
  NoDup (map g l) -> In x l -> In y l -> g x = g y -> x = y.
Proof.
  induction l as [|a l IH]; cbn [map]; intros Hnd Hx Hy E; [contradiction|].
  inversion Hnd as [|? ? Hnot Hnd']; subst.
  destruct Hx as [-> | Hx], Hy as [-> | Hy]; auto.
  - exfalso; apply Hnot. rewrite E. apply in_map, Hy.
  - exfalso; apply Hnot. rewrite <- E. apply in_map, Hx.
Qed.

Lemma TransactionType_eqb_eq (a b : TransactionType) :
  TransactionType_eqb a b = true <-> a = b.
Proof. destruct a, b; cbn; split; (reflexivity || discriminate). Qed.

(** The voice category rule does not look at the category's type: with
    distinct ids, the category it sets is among those the category select
    offers for the draft's type exactly when its own type is that type. *)
Theorem voice_category_and_select cats accs now t f c :
  NoDup (map cat_id cats) ->
  find (fun c => includes t ("category " ++ toLowerCase (cat_name c))) cats
    = Some c ->
  category (values (voice cats accs now t f)) = Some (cat_id c) /\
  (In (cat_id c)
      (map cat_id
         (filteredCategories cats
            (type (values (voice cats accs now t f))))) <->
   cat_type c = type (values (voice cats accs now t f))).
Proof.
  intros Hnd Hfind.
  destruct (find_some _ _ Hfind) as [Hin _].
  split.
  - rewrite processVoiceCommand_values; all_fields.
    unfold namesCategory; rewrite Hfind; reflexivity.
  - set (T := type (values (voice cats accs now t f))).
    unfold filteredCategories. rewrite in_map_iff. split.
    + intros (c' & Hid & Hc'). apply filter_In in Hc' as [Hin' Ht].
      apply TransactionType_eqb_eq in Ht.
      rewrite <- (NoDup_map_inj cat_id cats c' c Hnd Hin' Hin Hid).
      exact Ht.
    + intros Ht. exists c; split; [reflexivity|].
      apply filter_In; split; [exact Hin|].
      apply TransactionType_eqb_eq, Ht.
Qed.

(** Receiving the same scan result again changes the values no further. *)
Theorem scan_same_result_twice sd f :
  values (handleScanComplete Number_toString Date_from sd
            (handleScanComplete Number_toString Date_from sd f)) =
  values (handleScanComplete Number_toString Date_from sd f).
Proof.
  destruct sd as [d|]; [|reflexivity].
  unfold handleScanComplete, andThen.
  destruct f as [[? ? ? ? ? ? ? ?] ? ?].
  destruct (truthy (scan_description d)), (truthy (scan_category d));
    reflexivity.
Qed.

(* ================================================================= *)
(** ** The speech recognition session *)

Local Abbreviation run := (handleEvents Date_previousDay).

Lemma handleEvents_recognition cats accs events (c : Component Date) :
  recognition (voiceState (run cats accs events c)) =
  recognition (voiceState c).
Proof.
  revert c; induction events as [|e events IH]; intros c;
    cbn [handleEvents]; [reflexivity|].
  rewrite IH. destruct e; reflexivity.
Qed.

Lemma handleEvents_status cats accs events (c : Component Date) :
  statusWhileListening (voiceState c) ->
  statusWhileListening (voiceState (run cats accs events c)).
Proof.
  revert c; induction events as [|e events IH]; intros c Hc;
    cbn [handleEvents]; [exact Hc|].
  apply IH. destruct e; unfold statusWhileListening;
    cbn [handleEvent voiceState isListening voiceStatus]; intros H.
  - left; reflexivity.
  - discriminate.
  - discriminate.
  - right; eexists; reflexivity.
Qed.

(** From mount on, whatever the session reports: while the form shows
    itself as listening, the status line reads "Listening..." or
    "I heard: ..." (never an error text, the unsupported notice or
    nothing). *)
Theorem session_status_while_listening hasWindow supported cats accs events f :
  let c := run cats accs events
             (mkComponent (fst (mountSpeech hasWindow supported)) f) in
  isListening (voiceState c) = true ->
  voiceStatus (voiceState c) = "Listening..." \/
  exists heard, voiceStatus (voiceState c) = "I heard: " ++ toLowerCase heard.
Proof.
  cbv zeta. apply handleEvents_status.
  unfold statusWhileListening, mountSpeech, initSpeech.
  destruct hasWindow, supported; cbn; discriminate.
Qed.

(** The microphone button: without a window or a recognition constructor
    it never calls the recognition object, whatever happened before;
    otherwise it calls [stop] while listening and [start] while not. *)
Theorem session_toggle hasWindow supported cats accs events f :
  let c := run cats accs events
             (mkComponent (fst (mountSpeech hasWindow supported)) f) in
  toggleListening (voiceState c) =
  if hasWindow && supported then
    Some (if isListening (voiceState c) then StopRecognition
          else StartRecognition)
  else None.
Proof.
  cbv zeta. unfold toggleListening.
  rewrite handleEvents_recognition.
  unfold mountSpeech, initSpeech.
  destruct hasWindow, supported;
    cbn [fst voiceState recognition andb initialVoiceState];
    destruct (isListening _); reflexivity.
Qed.


Lemma handleEvents_form cats accs events (c1 c2 : Component Date) :
  form c1 = form c2 ->
  form (run cats accs events c1) = form (run cats accs events c2).
Proof.
  revert c1 c2; induction events as [|e events IH]; intros c1 c2 H;
    cbn [handleEvents]; [exact H|].
  apply IH. destruct e; cbn [handleEvent form]; rewrite ?H; reflexivity.
Qed.

(** Only results reach the form: start, end and error events can be left
    out of a run without changing the form it ends with. *)
Theorem session_form_from_results_only cats accs events (c : Component Date) :
  form (run cats accs events c) =
  form (run cats accs (filter isResult events) c).
Proof.
  revert c; induction events as [|e events IH]; intros c;
    cbn [handleEvents filter]; [reflexivity|].
  destruct e; cbn [isResult handleEvents]; rewrite IH;
    try reflexivity; apply handleEvents_form; reflexivity.
Qed.

End VoiceFacts.

(* ================================================================= *)
(** ** The properties on concrete drafts *)

(** The draft the examples start from. *)
Example salaryDraft_values :
  values Demo.salaryDraft =
  mkDraft INCOME (Some "") (Some "may salary") (Some "acc-2") (Some "salary")
          Demo.today false None.
Proof. vm_compute; reflexivity. Qed.

(** C1, as stated, fails: "expense and income" contains both words and the
    type of an INCOME draft becomes EXPENSE, not INCOME. *)
Lemma type_last_rule_does_not_win :
  includes "expense and income" "expense"
    || includes "expense and income" "spending" = true /\
  includes "expense and income" "income"
    || includes "expense and income" "earning" = true /\
  type (values Demo.salaryDraft) = INCOME /\
  type (values (Demo.voice "expense and income" Demo.salaryDraft)) = EXPENSE /\
  type (values (Demo.voice "expense and income" Demo.salaryDraft)) <> INCOME.
Proof. vm_compute; repeat split; discriminate. Qed.

Lemma voice_type_expense_first_witness :
  includes "expense and income" "expense"
    || includes "expense and income" "spending" = true /\
  type (values (Demo.voice "expense and income" Demo.salaryDraft)) = EXPENSE.
Proof.
  split; [reflexivity|].
  apply (voice_type_expense_first Demo.Date_previousDay).
  reflexivity.
Defined.

(** C2, as stated, fails: "daily" said to the fresh create-mode form sets
    the interval and leaves isRecurring false. *)
Lemma interval_without_recurring :
  Demo.Reached (Demo.voice "daily" Demo.fresh) /\
  recurringInterval (values (Demo.voice "daily" Demo.fresh)) = Some DAILY /\
  isRecurring (values (Demo.voice "daily" Demo.fresh)) = false /\
  ~ intervalOnlyWhenRecurring (values (Demo.voice "daily" Demo.fresh)).
Proof.
  split; [|split; [|split]].
  - apply reach_voice; [apply reach_create | exact I].
  - vm_compute; reflexivity.
  - vm_compute; reflexivity.
  - intros H. assert (E : false = true) by (apply H; vm_compute; discriminate).
    discriminate E.
Qed.

Lemma reachable_interval_only_when_recurring_witness :
  Reachable Demo.Number_toString Demo.Date_from Demo.Date_previousDay
    keepsInterval (Demo.voice "set recurring weekly" Demo.fresh) /\
  intervalOnlyWhenRecurring
    (values (Demo.voice "set recurring weekly" Demo.fresh)).
Proof.
  assert (R : Reachable Demo.Number_toString Demo.Date_from
                Demo.Date_previousDay keepsInterval
                (Demo.voice "set recurring weekly" Demo.fresh)).
  { apply reach_voice; [apply reach_create | left; reflexivity]. }
  split; [exact R|].
  exact (reachable_interval_only_when_recurring _ _ _ _ R).
Defined.

(** C3, as stated, fails: "amount 500" contains "amount 50" and sets "500";
    "i paid 150 dollars" contains "50 dollars" and sets "150"; in
    "amount 3 and 50 dollars" the leftmost match sets "3". *)
Lemma amount_is_the_whole_number :
  includes "amount 500" "amount 50" = true /\
  amount (values (Demo.voice "amount 500" Demo.fresh)) = Some "500" /\
  amount (values (Demo.voice "amount 500" Demo.fresh)) <> Some "50" /\
  includes "i paid 150 dollars" "50 dollars" = true /\
  amount (values (Demo.voice "i paid 150 dollars" Demo.fresh)) = Some "150" /\
  includes "amount 3 and 50 dollars" "50 dollars" = true /\
  amount (values (Demo.voice "amount 3 and 50 dollars" Demo.fresh)) = Some "3".
Proof. vm_compute; repeat split; discriminate. Qed.

Lemma voice_amount_fifty_witness :
  noDigit "set " = true /\
  numberGoesOn " please" = false /\
  amount (values (Demo.voice "set amount 50 please" Demo.fresh)) = Some "50".
Proof.
  split; [reflexivity | split; [reflexivity|]].
  apply (voice_amount_fifty Demo.Date_previousDay Demo.categories
           Demo.accounts Demo.today "set " " please").
  - reflexivity.
  - left; split; reflexivity.
Defined.

Lemma voice_today_before_yesterday_witness :
  includes "not yesterday but today" "today" = true /\
  includes "not yesterday but today" "yesterday" = true /\
  date (values (Demo.voice "not yesterday but today" Demo.fresh)) = Demo.today.
Proof.
  split; [reflexivity | split; [reflexivity|]].
  apply (voice_today_before_yesterday Demo.Date_previousDay); reflexivity.
Defined.

Lemma voice_interval_order_witness :
  includes "yearly monthly weekly daily" "daily" = true /\
  recurringInterval
    (values (Demo.voice "yearly monthly weekly daily" Demo.fresh))
  = Some DAILY.
Proof.
  split; [reflexivity|].
  apply (proj2 (voice_interval_order Demo.Date_previousDay Demo.categories
                  Demo.accounts Demo.today "yearly monthly weekly daily"
                  Demo.fresh)).
  reflexivity.
Defined.

(** Personal is the first account flagged default, Work is flagged too. *)
Lemma create_mode_defaults_witness :
  accountId (defaultValues Demo.Number_toString Demo.Date_from Demo.accounts
               false None Demo.today) = Some "acc-2" /\
  accountId (defaultValues Demo.Number_toString Demo.Date_from
               [mkAccount "acc-1" "Savings" 120 false] false None Demo.today)
  = None.
Proof.
  split.
  - pose proof (create_mode_defaults Demo.Number_toString Demo.Date_from
                  Demo.accounts Demo.today) as H.
    cbv zeta in H.
    destruct H as (_ & _ & _ & _ & _ & _ & _ & _ & _ & Hfirst).
    apply (Hfirst [mkAccount "acc-1" "Savings" 120 false]
                  [mkAccount "acc-3" "Work" 90 true]
                  (mkAccount "acc-2" "Personal" 35 true)).
    + reflexivity.
    + intros b [<- | []]; reflexivity.
    + reflexivity.
  - pose proof (create_mode_defaults Demo.Number_toString Demo.Date_from
                  [mkAccount "acc-1" "Savings" 120 false] Demo.today) as H.
    cbv zeta in H.
    destruct H as (_ & _ & _ & _ & _ & _ & _ & _ & Hnone & _).
    apply Hnone.
    intros a [<- | []]; reflexivity.
Defined.

(** A receipt with an amount and a date only. *)
Lemma scan_overwrites_amount_and_date_witness :
  amount (values (Demo.scan Demo.receipt Demo.salaryDraft)) = Some "12" /\
  date (values (Demo.scan Demo.receipt Demo.salaryDraft)) = 123 /\
  description (values (Demo.scan Demo.receipt Demo.salaryDraft))
    = Some "may salary" /\
  category (values (Demo.scan Demo.receipt Demo.salaryDraft))
    = Some "salary".
Proof.
  pose proof (scan_overwrites_amount_and_date Demo.Number_toString
                Demo.Date_from Demo.receipt Demo.salaryDraft) as H.
  cbv zeta in H.
  destruct H as (Ha & Hd & _ & _ & Hdesc & Hcat & _).
  split; [exact Ha | split; [exact Hd | split]].
  - exact (Hdesc eq_refl).
  - exact (Hcat eq_refl).
Defined.

Lemma voice_no_rule_no_change_witness :
  matchesSomeRule Demo.categories Demo.accounts "hello world" = false /\
  Demo.voice "hello world" Demo.salaryDraft = Demo.salaryDraft.
Proof.
  split; [reflexivity|].
  apply (voice_no_rule_no_change Demo.Date_previousDay).
  reflexivity.
Defined.

(* ================================================================= *)
(** ** The further properties on concrete drafts *)

Lemma voice_type_income_witness :
  type (values (Demo.voice "income" Demo.fresh)) = INCOME.
Proof.
  apply (voice_type_income Demo.Date_previousDay); reflexivity.
Defined.

Lemma voice_yesterday_witness :
  date (values (Demo.voice "it was yesterday" Demo.fresh)) = 199.
Proof.
  apply (voice_yesterday Demo.Date_previousDay Demo.categories Demo.accounts
           Demo.today "it was yesterday" Demo.fresh); reflexivity.
Defined.

Lemma scan_keeps_interval_invariant_witness :
  intervalOnlyWhenRecurring (values (Demo.scan Demo.receipt Demo.weeklySalary)).
Proof.
  apply (scan_keeps_interval_invariant Demo.Number_toString Demo.Date_from
           (Some Demo.receipt) Demo.weeklySalary).
  intros _; reflexivity.
Defined.

Lemma voice_amount_number_witness :
  amount (values (Demo.voice "i paid 12.50 dollars for lunch" Demo.fresh))
    = Some "12.50" /\
  amount (values (Demo.voice "set amount 7.25, thanks" Demo.fresh))
    = Some "7.25".
Proof.
  split.
  - apply (voice_amount_number Demo.Date_previousDay Demo.categories
             Demo.accounts Demo.today "i paid " "12.50" " for lunch").
    + exists "12"; split; [reflexivity|].
      right; exists "50"; split; reflexivity.
    + reflexivity.
    + right; reflexivity.
  - apply (voice_amount_number Demo.Date_previousDay Demo.categories
             Demo.accounts Demo.today "set " "7.25" ", thanks").
    + exists "7"; split; [reflexivity|].
      right; exists "25"; split; reflexivity.
    + reflexivity.
    + left; split; reflexivity.
Defined.

Lemma voice_amount_needs_digit_witness :
  amount (values (Demo.voice "amount fifty dollars" Demo.weeklySalary))
    = Some "900".
Proof.
  exact (voice_amount_needs_digit Demo.Date_previousDay Demo.categories
           Demo.accounts Demo.today "amount fifty dollars" Demo.weeklySalary
           eq_refl).
Defined.

Lemma voice_amount_is_decimal_witness :
  exists n,
    amount (values (Demo.voice "amount 500" Demo.fresh)) = Some n /\
    DecimalText n.
Proof.
  apply (voice_amount_is_decimal Demo.Date_previousDay).
  vm_compute; discriminate.
Defined.

Lemma voice_description_text_witness :
  description
    (values (Demo.voice "set description lunch with clients amount 50"
               Demo.fresh))
  = Some "lunch with clients".
Proof.
  apply (voice_description_text Demo.Date_previousDay Demo.categories
           Demo.accounts Demo.today "set " "lunch with clients" " amount 50");
    try reflexivity.
  discriminate.
Defined.

Lemma voice_description_needs_keyword_witness :
  description (values (Demo.voice "describe lunch" Demo.salaryDraft))
    = Some "may salary".
Proof.
  exact (voice_description_needs_keyword Demo.Date_previousDay Demo.categories
           Demo.accounts Demo.today "describe lunch" Demo.salaryDraft eq_refl).
Defined.

Lemma voice_description_is_trimmed_witness :
  exists d,
    description (values (Demo.voice "description   lunch   " Demo.fresh))
      = Some d /\
    headIs isSpace d = false /\ lastIs isSpace d = false.
Proof.
  apply (voice_description_is_trimmed Demo.Date_previousDay).
  vm_compute; discriminate.
Defined.

Lemma voice_keeps_fields_defined_witness :
  amount (values (Demo.voice "daily" Demo.weeklySalary)) <> None /\
  description (values (Demo.voice "daily" Demo.weeklySalary)) <> None /\
  accountId (values (Demo.voice "daily" Demo.weeklySalary)) <> None /\
  category (values (Demo.voice "daily" Demo.weeklySalary)) <> None /\
  recurringInterval (values (Demo.voice "daily" Demo.weeklySalary)) <> None.
Proof.
  destruct (voice_keeps_fields_defined Demo.Date_previousDay Demo.categories
              Demo.accounts Demo.today "daily" Demo.weeklySalary)
    as (H1 & H2 & H3 & H4 & H5).
  repeat split; [apply H1 | apply H2 | apply H3 | apply H4 | apply H5];
    vm_compute; discriminate.
Defined.

Lemma voice_recurring_flag_witness :
  isRecurring
    (values (Demo.voice "not recurring, set recurring" Demo.fresh)) = true /\
  isRecurring (values (Demo.voice "not recurring" Demo.weeklySalary)) = false /\
  isRecurring (values (Demo.voice "recurring" Demo.weeklySalary)) = true.
Proof.
  split; [|split].
  - apply (proj1 (voice_recurring_flag Demo.Date_previousDay Demo.categories
                    Demo.accounts Demo.today "not recurring, set recurring"
                    Demo.fresh)).
    reflexivity.
  - apply (proj1 (proj2 (voice_recurring_flag Demo.Date_previousDay
                           Demo.categories Demo.accounts Demo.today
                           "not recurring" Demo.weeklySalary)));
      reflexivity.
  - exact (proj2 (proj2 (voice_recurring_flag Demo.Date_previousDay
                           Demo.categories Demo.accounts Demo.today
                           "recurring" Demo.weeklySalary))
             eq_refl eq_refl).
Defined.

Lemma onresult_reads_ids_and_lowercase_names_witness :
  values (onresult Demo.Date_previousDay Demo.categories Demo.accounts
            Demo.today "Category FOOD, Account Work" Demo.fresh) =
  values (onresult Demo.Date_previousDay Demo.categoriesShouted
            Demo.accountsShouted Demo.today
            (toLowerCase "Category FOOD, Account Work") Demo.fresh).
Proof.
  apply (onresult_reads_ids_and_lowercase_names Demo.Date_previousDay);
    reflexivity.
Defined.

(** Salary is an INCOME category; named to an EXPENSE draft it is set all
    the same, and the category select does not offer it. *)
Lemma voice_category_and_select_witness :
  category (values (Demo.voice "category salary" Demo.fresh))
    = Some "salary" /\
  ~ In "salary"
      (map cat_id
         (filteredCategories Demo.categories
            (type (values (Demo.voice "category salary" Demo.fresh))))).
Proof.
  assert (Hnd : NoDup (map cat_id Demo.categories)).
  { repeat constructor; cbn; intuition discriminate. }
  destruct (voice_category_and_select Demo.Date_previousDay Demo.categories
              Demo.accounts Demo.today "category salary" Demo.fresh
              (mkCategory "salary" "Salary" INCOME) Hnd eq_refl)
    as [Hset Hiff].
  split; [exact Hset|].
  intros Hin. apply Hiff in Hin. discriminate Hin.
Defined.

Lemma session_status_while_listening_witness :
  isListening (voiceState (Demo.hear Demo.session Demo.mounted)) = true /\
  (voiceStatus (voiceState (Demo.hear Demo.session Demo.mounted))
     = "Listening..." \/
   exists heard,
     voiceStatus (voiceState (Demo.hear Demo.session Demo.mounted))
       = "I heard: " ++ toLowerCase heard).
Proof.
  split; [reflexivity|].
  apply (session_status_while_listening Demo.Date_previousDay true true
           Demo.categories Demo.accounts Demo.session Demo.fresh).
  reflexivity.
Defined.

